(** * tracktor.comet_utils: the lazily activated Comet logging facade

    A shallow embedding of [src/tracktor/comet_utils.py].  The module holds one
    class, [CometLogger], whose seven public methods are all wrapped by the
    decorator [_requiresComet].  The decorator activates a comet_ml experiment
    on first use and afterwards either forwards the call or skips it.

    comet_ml itself is a third-party library: it appears here as an interface
    ([CometML]) whose functions may return or raise and may change the state of
    the library in any way they like. *)

From Stdlib Require Import ZArith String List Bool SpecFloat Lia.
From stdpp Require Import base option list strings gmap.

Set Default Proof Using "Type*".
Open Scope string_scope.
Open Scope nat_scope.
Open Scope list_scope.

(** ** Python values *)

(** The values that flow through the facade.  They are only compared with
    [True]/[False] (the [comet] flag) or handed on to comet_ml untouched.
    [VObj] stands for any other object (a stream, a tensor, a PIL image, a
    dict, ...) with the default, identity based [__eq__]. *)
Inductive pyval : Type :=
| VNone
| VBool (b : bool)
| VInt (z : Z)
| VFloat (f : spec_float)
| VStr (s : string)
| VObj (id : positive).

(** binary64 [1.0], in the canonical form of [SpecFloat] *)
Definition float_one : spec_float := S754_finite false 4503599627370496 (-52).

(** [v == True] and [v == False].  [bool] is a subclass of [int] and compares
    numerically with [int] and [float]; everything else is unequal to both. *)
Definition py_eq_bool (v : pyval) (b : bool) : bool :=
  match v with
  | VBool c => Bool.eqb c b
  | VInt z => (z =? (if b then 1 else 0))%Z
  | VFloat f => SFeqb f (if b then float_one else S754_zero false)
  | VNone | VStr _ | VObj _ => false
  end.

(** [**kwargs]: a dict with string keys *)
Abbreviation kwargs := (gmap string pyval).

(** What a caller writes between the parentheses of [logger.m(...)]: the
    positional arguments after [self] and the keyword arguments. *)
Record call_args : Type := Args {
  positional : list pyval;
  keywords : kwargs
}.

(** ** Exceptions and outcomes *)

(** Instances of [Exception].  [KeyboardInterrupt] and [SystemExit], which
    are asynchronous or leave the interpreter, are not modelled. *)
Inductive exn : Type :=
| Exception (msg : string)       (* [raise Exception(msg)] *)
| TypeError                      (* the arguments do not fit the signature *)
| NameError (name : string)      (* a global that was never bound *)
| AttributeError (attr : string) (* an attribute that was never set *)
| ClientError (msg : string).    (* an exception class of comet_ml *)

Inductive outcome (A : Type) : Type :=
| Returns (a : A)
| Raises (e : exn).
Arguments Returns {A} a.
Arguments Raises {A} e.

(** ** The comet_ml interface *)

(** An [Experiment] object, by identity *)
Inductive experiment : Type := ExperimentObj (id : positive).

(** The seven method names, shared by [CometLogger] and [Experiment] *)
Inductive method_name : Type :=
| m_end | m_log_metric | m_log_model | m_log_image | m_log_code
| m_log_asset | m_add_tag.

(** The state of the imported module: the slot [comet_ml.config.experiment],
    which the facade assigns to, and everything else the library and the
    service behind it remember. *)
Record comet_ml_module (L : Type) : Type := CometModule {
  config_experiment : option experiment;
  internals : L
}.
Arguments CometModule {L} _ _.
Arguments config_experiment {L} _.
Arguments internals {L} _.

(** The functions of comet_ml the facade calls.  Each one may raise, and each
    one may update the module state, the slot included. *)
Class CometML (L : Type) : Type := {
  comet_ml_init : comet_ml_module L → outcome unit * comet_ml_module L;
  comet_ml_get_global_experiment :
    comet_ml_module L → outcome (option experiment) * comet_ml_module L;
  comet_ml_Experiment :
    kwargs → comet_ml_module L → outcome experiment * comet_ml_module L;
  experiment_method :
    experiment → method_name → list pyval →
    comet_ml_module L → outcome pyval * comet_ml_module L
}.

(** A call into comet_ml, as it is seen from outside *)
Inductive event : Type :=
| EvInit
| EvGetGlobalExperiment
| EvExperiment (config : kwargs)
| EvMethod (e : experiment) (m : method_name) (args : list pyval).

Definition is_EvExperiment (ev : event) : bool :=
  match ev with EvExperiment _ => true | _ => false end.

(** What [logging.warning] is called with: a message or an exception object *)
Inductive log_record : Type :=
| WarnStr (msg : string)
| WarnExn (e : exn).

(** The literal of lines 30 to 32; a backslash at the end of a line continues
    the literal and the indentation of the next line belongs to it. *)
Definition clash_message : string :=
  ("You have already created a comet " ++
   "                                        experiment manually, which might " ++
   "                                        cause clashes")%string.

Definition is_clash (r : log_record) : bool :=
  match r with
  | WarnStr s => bool_decide (s = clash_message)
  | WarnExn _ => false
  end.

(** ** Signatures *)

(** A parameter with its default, if it has one *)
Definition param : Type := string * option pyval.

(** Binding of the arguments of a call to the parameters that follow [self]:
    positional arguments fill the parameters from the left, a keyword fills
    the parameter of its name, what is left takes its default.  [None] is a
    [TypeError]: too many positional arguments, a parameter given twice, or a
    required parameter not given. *)
Fixpoint bind_params (sig : list param) (pos : list pyval) (kw : kwargs)
  : option (list pyval) :=
  match sig with
  | [] => match pos with [] => Some [] | _ :: _ => None end
  | (name, dflt) :: sig' =>
      match pos with
      | v :: pos' =>
          match kw !! name with
          | Some _ => None
          | None => (v ::.) <$> bind_params sig' pos' kw
          end
      | [] =>
          match kw !! name, dflt with
          | Some v, _ => (v ::.) <$> bind_params sig' [] kw
          | None, Some d => (d ::.) <$> bind_params sig' [] kw
          | None, None => None
          end
      end
  end.

(** A keyword that names no parameter is a [TypeError] as well. *)
Definition bind_args (sig : list param) (a : call_args) : option (list pyval) :=
  if bool_decide (dom (keywords a) ⊆ list_to_set sig.*1)
  then bind_params sig (positional a) (keywords a)
  else None.

Definition sig_end : list param := [].

Definition sig_log_metric : list param :=
  [("name", None); ("value", None); ("step", Some VNone);
   ("epoch", Some VNone); ("include_context", Some (VBool true))].

Definition sig_log_model : list param :=
  [("name", None); ("file_or_folder", None); ("file_name", Some VNone)].

Definition sig_log_image : list param :=
  [("image_data", None); ("name", Some VNone); ("overwrite", Some (VBool false));
   ("image_format", Some (VStr "png")); ("image_scale", Some (VFloat float_one));
   ("image_shape", Some VNone); ("image_colormap", Some VNone);
   ("image_minmax", Some VNone); ("image_channels", Some (VStr "last"));
   ("copy_to_tmp", Some (VBool true)); ("step", Some VNone)].

Definition sig_log_code : list param :=
  [("file_name", Some VNone); ("folder", Some VNone); ("code", Some VNone);
   ("code_name", Some VNone)].

Definition sig_log_asset : list param :=
  [("file_data", None); ("file_name", Some VNone); ("overwrite", Some (VBool false));
   ("copy_to_tmp", Some (VBool true)); ("step", Some VNone);
   ("metadata", Some VNone)].

Definition sig_add_tag : list param := [("tag", None)].

Definition signature (m : method_name) : list param :=
  match m with
  | m_end => sig_end
  | m_log_metric => sig_log_metric
  | m_log_model => sig_log_model
  | m_log_image => sig_log_image
  | m_log_code => sig_log_code
  | m_log_asset => sig_log_asset
  | m_add_tag => sig_add_tag
  end.

(** ** The object *)

(** [_logging] is [None], [False] or [True]; [_experiment] is an attribute
    only once an activation has assigned it. *)
Record CometLogger : Type := Logger {
  _logging : option bool;
  _comet_args : kwargs;
  _experiment : option experiment
}.

(** The three states of the specification, read off [_logging] *)
Inductive session_state : Type := UNINITIALIZED | ACTIVE | DISABLED.

Definition state_of (s : CometLogger) : session_state :=
  match _logging s with
  | None => UNINITIALIZED
  | Some true => ACTIVE
  | Some false => DISABLED
  end.

Definition missing_dependency : exn :=
  Exception "Comet not installed. Run 'pip install comet-ml'".

(** [CometLogger.__init__(self, comet=False, **kwargs)]; [comet_installed] is
    the module global set by the [import] at the top of the file. *)
Definition __init__ (comet_installed : bool) (comet : pyval) (kw : kwargs)
  : outcome CometLogger :=
  let self := Logger None kw None in
  if py_eq_bool comet false then
    Returns (Logger (Some false) (_comet_args self) (_experiment self))
  else if py_eq_bool comet true && negb comet_installed then
    Raises missing_dependency
  else Returns self.

(** [CometLogger(...)]: the arguments of the call are bound to
    [__init__(self, comet=False, **kwargs)] and then the body runs.  A second
    positional argument, a keyword [self], and [comet] given both by position
    and by keyword are a [TypeError]; the keywords other than [comet] make up
    [kwargs]. *)
Definition CometLogger_call (comet_installed : bool) (a : call_args)
  : outcome CometLogger :=
  match keywords a !! "self", positional a with
  | Some _, _ => Raises TypeError
  | None, [] =>
      __init__ comet_installed
               (default (VBool false) (keywords a !! "comet"))
               (delete "comet" (keywords a))
  | None, [comet] =>
      match keywords a !! "comet" with
      | Some _ => Raises TypeError
      | None => __init__ comet_installed comet (keywords a)
      end
  | None, _ :: _ :: _ => Raises TypeError
  end.

(** ** The machine *)

Section Facade.
Context {L : Type} `{!CometML L}.

(** [comet_installed]: whether [import comet_ml] succeeded.  When it did
    not, the name [comet_ml] is unbound. *)
Variable comet_installed : bool.

(** One guard instance in its process: the object, the imported module,
    what was handed to [logging.warning] and the calls made into comet_ml
    (both oldest first). *)
Record machine : Type := Machine {
  self : CometLogger;
  comet_ml : comet_ml_module L;
  logged : list log_record;
  trace : list event
}.

(** Statements run on the machine and return or raise; what they did to
    the machine before raising stays done. *)
Definition M (A : Type) : Type := machine → outcome A * machine.

#[global] Instance M_ret : MRet M := λ A a m, (Returns a, m).

#[global] Instance M_bind : MBind M := λ A B k c m,
  match c m with
  | (Returns a, m') => k a m'
  | (Raises e, m') => (Raises e, m')
  end.

Definition raise {A} (e : exn) : M A := λ m, (Raises e, m).

(** [try: body except Exception as e: handler(e)] *)
Definition try_except {A} (body : M A) (handler : exn → M A) : M A := λ m,
  match body m with
  | (Returns a, m') => (Returns a, m')
  | (Raises e, m') => handler e m'
  end.

Definition get_self : M CometLogger := λ m, (Returns (self m), m).

Definition set_logging (v : option bool) : M unit := λ m,
  (Returns (),
   Machine (Logger v (_comet_args (self m)) (_experiment (self m)))
           (comet_ml m) (logged m) (trace m)).

Definition set_experiment (e : experiment) : M unit := λ m,
  (Returns (),
   Machine (Logger (_logging (self m)) (_comet_args (self m)) (Some e))
           (comet_ml m) (logged m) (trace m)).

(** [self._experiment] *)
Definition get_experiment : M experiment := λ m,
  match _experiment (self m) with
  | Some e => (Returns e, m)
  | None => (Raises (AttributeError "_experiment"), m)
  end.

(** [logging.warning(r)] *)
Definition logging_warning (r : log_record) : M unit := λ m,
  (Returns (), Machine (self m) (comet_ml m) (logged m ++ [r]) (trace m)).

(** A call into comet_ml: it is recorded, then the library runs. *)
Definition client {A} (ev : event)
    (f : comet_ml_module L → outcome A * comet_ml_module L) : M A := λ m,
  let '(r, c) := f (comet_ml m) in
  (r, Machine (self m) c (logged m) (trace m ++ [ev])).

(** The global name [comet_ml] outside the guarded activation block *)
Definition comet_ml_name : M unit :=
  if comet_installed then mret () else raise (NameError "comet_ml").

(** [comet_ml.config.experiment = v] *)
Definition set_config_experiment (v : option experiment) : M unit := λ m,
  (Returns (),
   Machine (self m) (CometModule v (internals (comet_ml m)))
           (logged m) (trace m)).

(** The [try] block of the decorator, lines 28 to 34 *)
Definition activation : M unit :=
  client EvInit comet_ml_init;;
  g ← client EvGetGlobalExperiment comet_ml_get_global_experiment;
  (if g is Some _ then logging_warning (WarnStr clash_message) else mret ());;
  s ← get_self;
  e ← client (EvExperiment (_comet_args s)) (comet_ml_Experiment (_comet_args s));
  set_experiment e;;
  set_logging (Some true).

(** [_requiresComet(method)], that is, [wrapper(self, *args, **kwargs)] *)
Definition _requiresComet (method : call_args → M pyval) : call_args → M pyval :=
  λ a,
    s ← get_self;
    (if bool_decide (_logging s = None) && comet_installed then
       set_logging (Some false);;
       try_except activation (λ e, logging_warning (WarnExn e))
     else mret ());;
    s ← get_self;
    if bool_decide (_logging s = Some true) then method a else mret VNone.

(** The body shared by the six logging methods: the parameters are bound,
    then passed on positionally and in order to the method of the same name
    of [self._experiment]; what that returns is dropped. *)
Definition forward (name : method_name) (a : call_args) : M pyval :=
  match bind_args (signature name) a with
  | None => raise TypeError
  | Some vs =>
      e ← get_experiment;
      client (EvMethod e name vs) (experiment_method e name vs);;
      mret VNone
  end.

(** [end(self)], before it is decorated *)
Definition end__wrapped__ (a : call_args) : M pyval :=
  match bind_args sig_end a with
  | None => raise TypeError
  | Some _ =>
      e ← get_experiment;
      client (EvMethod e m_end []) (experiment_method e m_end []);;
      comet_ml_name;;
      set_config_experiment None;;
      mret VNone
  end.

Definition end_ : call_args → M pyval := _requiresComet end__wrapped__.
Definition log_metric : call_args → M pyval := _requiresComet (forward m_log_metric).
Definition log_model : call_args → M pyval := _requiresComet (forward m_log_model).
Definition log_image : call_args → M pyval := _requiresComet (forward m_log_image).
Definition log_code : call_args → M pyval := _requiresComet (forward m_log_code).
Definition log_asset : call_args → M pyval := _requiresComet (forward m_log_asset).
Definition add_tag : call_args → M pyval := _requiresComet (forward m_add_tag).

(** The function a decorated method wraps *)
Definition wrapped (name : method_name) : call_args → M pyval :=
  match name with
  | m_end => end__wrapped__
  | _ => forward name
  end.

(** [getattr(logger, name)] *)
Definition method (name : method_name) : call_args → M pyval :=
  match name with
  | m_end => end_
  | m_log_metric => log_metric
  | m_log_model => log_model
  | m_log_image => log_image
  | m_log_code => log_code
  | m_log_asset => log_asset
  | m_add_tag => add_tag
  end.

(** A caller that makes one call after the other and goes on after an
    exception; the outcomes are collected in order. *)
Fixpoint run (calls : list (method_name * call_args)) (m : machine)
  : list (outcome pyval) * machine :=
  match calls with
  | [] => ([], m)
  | (name, a) :: rest =>
      let '(r, m') := method name a m in
      let '(rs, m'') := run rest m' in
      (r :: rs, m'')
  end.

(** The states the guard is in after each call, the one before the first
    call included *)
Fixpoint states (calls : list (method_name * call_args)) (m : machine)
  : list session_state :=
  state_of (self m) ::
  match calls with
  | [] => []
  | (name, a) :: rest => states rest (method name a m).2
  end.

(** A fresh process around a constructed object *)
Definition start (obj : CometLogger) (c : comet_ml_module L) : machine :=
  Machine obj c [] [].

(** How often [comet_ml.Experiment(...)] has been called *)
Definition Experiment_calls (m : machine) : nat :=
  length (filter (λ ev, is_EvExperiment ev = true) (trace m)).

(** Calls other than [comet_ml.Experiment(...)] *)
Definition no_Experiment (evs : list event) : Prop :=
  Forall (λ ev, is_EvExperiment ev = false) evs.

(** The machine with [_logging] set to [v] *)
Definition with_logging (v : option bool) (m : machine) : machine :=
  (set_logging v m).2.

(** [comet_ml.Experiment(...)] is called once at most, and not at all
    before the guard has left its initial state. *)
Definition at_most_once (m : machine) : Prop :=
  match _logging (self m) with
  | None => Experiment_calls m = 0
  | Some _ => Experiment_calls m ≤ 1
  end.

(** An active guard holds an experiment, and comet_ml was imported. *)
Definition well_formed (m : machine) : Prop :=
  _logging (self m) = Some true →
  comet_installed = true ∧ is_Some (_experiment (self m)).

(** How often the clash warning has been logged *)
Definition clash_warnings (m : machine) : nat :=
  length (filter (λ r, is_clash r = true) (logged m)).

End Facade.

Arguments machine L : clear implicits.
Arguments M L A : clear implicits.
Arguments Machine {L} _ _ _ _.
Arguments self {L} _.
Arguments comet_ml {L} _.
Arguments logged {L} _.
Arguments trace {L} _.

(** ** What the environment does during an activation attempt *)

Section Environment.
Context {L : Type} `{!CometML L}.

(** The three calls of the [try] block all return: [g] is what
    [get_global_experiment()] answered, [h] the new experiment, [c'] the
    module afterwards. *)
Definition activation_succeeds (kw : kwargs) (c : comet_ml_module L)
    (g : option experiment) (h : experiment) (c' : comet_ml_module L) : Prop :=
  ∃ c1 c2,
    comet_ml_init c = (Returns (), c1) ∧
    comet_ml_get_global_experiment c1 = (Returns g, c2) ∧
    comet_ml_Experiment kw c2 = (Returns h, c').

(** One of the three calls raises [e]; the calls before it returned. *)
Inductive activation_throws (kw : kwargs) (c : comet_ml_module L) (e : exn)
  : Prop :=
| throws_in_init c' :
    comet_ml_init c = (Raises e, c') →
    activation_throws kw c e
| throws_in_get_global_experiment c1 c' :
    comet_ml_init c = (Returns (), c1) →
    comet_ml_get_global_experiment c1 = (Raises e, c') →
    activation_throws kw c e
| throws_in_Experiment c1 g c2 c' :
    comet_ml_init c = (Returns (), c1) →
    comet_ml_get_global_experiment c1 = (Returns g, c2) →
    comet_ml_Experiment kw c2 = (Raises e, c') →
    activation_throws kw c e.

End Environment.

(** ** An example comet_ml

    A small stand-in for the library, to run the facade on concrete calls:
    [init()] needs a connection, [Experiment(...)] needs an [api_key] and
    installs the new experiment as the global one, and [log_code] insists on
    a [code_name] whenever [code] is given (the docstring of [log_code]: "If
    passed, code_name is mandatory"). *)

Record sim : Type := Sim {
  sim_online : bool;
  sim_next : positive;
  sim_ended : list experiment
}.

Definition sim_init (c : comet_ml_module sim) : outcome unit * comet_ml_module sim :=
  if sim_online (internals c) then (Returns (), c)
  else (Raises (ClientError "no connection"), c).

Definition sim_get_global_experiment (c : comet_ml_module sim)
  : outcome (option experiment) * comet_ml_module sim :=
  (Returns (config_experiment c), c).

Definition sim_Experiment (kw : kwargs) (c : comet_ml_module sim)
  : outcome experiment * comet_ml_module sim :=
  match kw !! "api_key" with
  | None => (Raises (ClientError "api_key is missing"), c)
  | Some _ =>
      let i := internals c in
      let e := ExperimentObj (sim_next i) in
      (Returns e,
       CometModule (Some e) (Sim (sim_online i) (Pos.succ (sim_next i)) (sim_ended i)))
  end.

Definition sim_method (e : experiment) (name : method_name) (args : list pyval)
    (c : comet_ml_module sim) : outcome pyval * comet_ml_module sim :=
  match name, args with
  | m_end, _ =>
      let i := internals c in
      (Returns VNone,
       CometModule (config_experiment c)
                   (Sim (sim_online i) (sim_next i) (sim_ended i ++ [e])))
  | m_log_code, [_; _; (VStr _ | VObj _); VNone] =>
      (Raises (ClientError "code_name is mandatory"), c)
  | _, _ => (Returns VNone, c)
  end.

#[global] Instance sim_CometML : CometML sim := {
  comet_ml_init := sim_init;
  comet_ml_get_global_experiment := sim_get_global_experiment;
  comet_ml_Experiment := sim_Experiment;
  experiment_method := sim_method
}.

(** A process that has imported this comet_ml and has not used it yet *)
Definition sim_fresh (online : bool) : comet_ml_module sim :=
  CometModule None (Sim online 1%positive []).

(** ... and one in which the user has made an experiment by hand *)
Definition sim_manual : comet_ml_module sim :=
  CometModule (Some (ExperimentObj 1%positive)) (Sim true 2%positive []).

Definition sim_config : kwargs := {[ "api_key" := VStr "k3y" ]}.

(** [CometLogger(comet=True, api_key="k3y")] when comet_ml is installed *)
Definition sim_logger : CometLogger := Logger None sim_config None.

(** [logger.log_metric("x", float('nan'))] *)
Definition nan_metric : method_name * call_args :=
  (m_log_metric, Args [VStr "x"; VFloat S754_nan] ∅).

(** [logger.log_metric("loss", 1.0, step=3)] *)
Definition loss_metric : method_name * call_args :=
  (m_log_metric, Args [VStr "loss"; VFloat float_one] {[ "step" := VInt 3 ]}).

(** [logger.log_code(code="print(1)")] *)
Definition code_without_name : method_name * call_args :=
  (m_log_code, Args [] {[ "code" := VStr "print(1)" ]}).

(** [logger.end()] *)
Definition plain_end : method_name * call_args := (m_end, Args [] ∅).

(** [logger.add_tag()] and [logger.log_model("net", "net.pth", nme="x")]:
    calls that do not fit the signatures *)
Definition tag_without_tag : method_name * call_args := (m_add_tag, Args [] ∅).
Definition model_misspelt : method_name * call_args :=
  (m_log_model, Args [VStr "net"; VStr "net.pth"] {[ "nme" := VStr "x" ]}).

(** The machine after [logger.log_metric("loss", 1.0, step=3)] as the first
    call, with a connection *)
Definition sim_active : machine sim :=
  (run true [loss_metric] (start sim_logger (sim_fresh true))).2.

(** The module after a successful activation in a fresh process *)
Definition sim_activated : comet_ml_module sim :=
  CometModule (Some (ExperimentObj 1%positive)) (Sim true 2%positive []).

(** ** Vocabulary for traces and logs *)

(** The three calls of an activation with the configuration [kw] *)
Definition activation_calls (kw : kwargs) : list event :=
  [EvInit; EvGetGlobalExperiment; EvExperiment kw].

(** A call of some method of the experiment [h] *)
Definition on_experiment (h : experiment) (ev : event) : Prop :=
  ∃ name vs, ev = EvMethod h name vs.

(** What a returning call leaves in [comet_ml]: [end] clears the slot, the
    other methods leave the module as the experiment left it. *)
Definition after_method {L} (name : method_name) (c : comet_ml_module L)
  : comet_ml_module L :=
  match name with
  | m_end => CometModule None (internals c)
  | _ => c
  end.

(** The shape of the trace and of the log of a guard that was constructed
    with the configuration [kw], by the state it is in *)
Definition follows_protocol {L} (kw : kwargs) (m : machine L) : Prop :=
  _comet_args (self m) = kw ∧
  match _logging (self m) with
  | None => trace m = [] ∧ logged m = []
  | Some false =>
      trace m `prefix_of` activation_calls kw ∧
      ∃ e, logged m `sublist_of` [WarnStr clash_message; WarnExn e]
  | Some true =>
      (∃ h evs, _experiment (self m) = Some h ∧
         trace m = activation_calls kw ++ evs ∧ Forall (on_experiment h) evs) ∧
      logged m `sublist_of` [WarnStr clash_message]
  end.

(** Arguments that Python refuses for the parameters [sig]: more positional
    arguments than parameters, a keyword that names no parameter, a parameter
    given both by position and by keyword, or a parameter without default
    that is not given at all. *)
Definition misfit (sig : list param) (a : call_args) : Prop :=
  length sig < length (positional a) ∨
  (∃ n, is_Some (keywords a !! n) ∧ n ∉ sig.*1) ∨
  (∃ i n d, sig !! i = Some (n, d) ∧ i < length (positional a) ∧
            is_Some (keywords a !! n)) ∨
  (∃ i n, sig !! i = Some (n, None) ∧ length (positional a) ≤ i ∧
          keywords a !! n = None).

(** ** The decorator, state by state *)

Ltac unfold_wrapper :=
  unfold _requiresComet, mbind, M_bind, get_self, mret, M_ret.

Section Wrapper.
Context {L : Type} `{!CometML L}.
Variable comet_installed : bool.
Implicit Types (m : machine L) (a : call_args) (meth : call_args → M L pyval).

Lemma wrapper_DISABLED meth a m :
  _logging (self m) = Some false →
  _requiresComet comet_installed meth a m = (Returns VNone, m).
Proof.
  intros Hs. unfold_wrapper. repeat (first [progress cbn | rewrite Hs]).
  reflexivity.
Qed.

Lemma wrapper_ACTIVE meth a m :
  _logging (self m) = Some true →
  _requiresComet comet_installed meth a m = meth a m.
Proof.
  intros Hs. unfold_wrapper. repeat (first [progress cbn | rewrite Hs]).
  reflexivity.
Qed.

Lemma wrapper_not_installed meth a m :
  _logging (self m) = None → comet_installed = false →
  _requiresComet comet_installed meth a m = (Returns VNone, m).
Proof.
  intros Hs ->. unfold_wrapper. repeat (first [progress cbn | rewrite Hs]).
  reflexivity.
Qed.

Lemma wrapper_UNINITIALIZED meth a m :
  _logging (self m) = None → comet_installed = true →
  _requiresComet comet_installed meth a m =
    match activation (with_logging (Some false) m) with
    | (Returns _, m') =>
        if bool_decide (_logging (self m') = Some true) then meth a m'
        else (Returns VNone, m')
    | (Raises e, m') =>
        let m'' := (logging_warning (WarnExn e) m').2 in
        if bool_decide (_logging (self m'') = Some true) then meth a m''
        else (Returns VNone, m'')
    end.
Proof.
  intros Hs ->. unfold_wrapper. repeat (first [progress cbn | rewrite Hs]).
  unfold try_except, with_logging. cbn.
  destruct (activation _) as [[[]|e] m']; cbn;
    destruct (bool_decide _); reflexivity.
Qed.

Lemma method_unfold name :
  method comet_installed name = _requiresComet comet_installed (wrapped comet_installed name).
Proof. destruct name; reflexivity. Qed.

(** *** The [try] block *)

Lemma activation_events kw :
  filter (λ ev, is_EvExperiment ev = true)
         [EvInit; EvGetGlobalExperiment; EvExperiment kw] = [EvExperiment kw].
Proof. reflexivity. Qed.

Lemma filter_prefix {A} (P : A → Prop) `{!∀ x, Decision (P x)} (l k : list A) :
  l `prefix_of` k → filter P l `prefix_of` filter P k.
Proof. intros [t ->]. rewrite filter_app. by eexists. Qed.

Lemma Experiment_calls_app m m' evs :
  trace m' = trace m ++ evs →
  Experiment_calls m' =
    Experiment_calls m + length (filter (λ ev, is_EvExperiment ev = true) evs).
Proof.
  intros Ht. unfold Experiment_calls. rewrite Ht, filter_app, length_app.
  reflexivity.
Qed.

Lemma Experiment_calls_frame m m' evs :
  trace m' = trace m ++ evs → no_Experiment evs →
  Experiment_calls m' = Experiment_calls m.
Proof.
  intros Ht Hn. rewrite (Experiment_calls_app _ _ _ Ht).
  assert (filter (λ ev, is_EvExperiment ev = true) evs = []) as ->.
  { clear Ht. induction Hn as [|ev evs Hev _ IH]; [done|].
    rewrite filter_cons. destruct (decide _) as [E|_]; [congruence | exact IH]. }
  cbn. lia.
Qed.

Lemma activation_returns m g h c' :
  activation_succeeds (_comet_args (self m)) (comet_ml m) g h c' →
  activation m =
    (Returns (),
     Machine (Logger (Some true) (_comet_args (self m)) (Some h)) c'
       (logged m ++ (if g is Some _ then [WarnStr clash_message] else []))
       (trace m ++ [EvInit; EvGetGlobalExperiment;
                    EvExperiment (_comet_args (self m))])).
Proof.
  intros (c1 & c2 & Hi & Hg & He).
  unfold activation, mbind, M_bind, client, get_self. cbn.
  rewrite Hi. cbn. rewrite Hg. cbn.
  destruct g; cbn; rewrite He; cbn; rewrite <- ?app_assoc, ?app_nil_r;
    reflexivity.
Qed.

(** Whatever the library does, the block either returns, with the object
    active, or raises, with the object as it was. *)
Lemma activation_inv m :
  let kw := _comet_args (self m) in
  match activation m with
  | (Returns _, m') =>
      ∃ g h, activation_succeeds kw (comet_ml m) g h (comet_ml m') ∧
        self m' = Logger (Some true) kw (Some h) ∧
        logged m' = logged m ++ (if g is Some _ then [WarnStr clash_message] else []) ∧
        trace m' = trace m ++ [EvInit; EvGetGlobalExperiment; EvExperiment kw]
  | (Raises e, m') =>
      activation_throws kw (comet_ml m) e ∧ self m' = self m ∧
      ∃ ws evs, logged m' = logged m ++ ws ∧ trace m' = trace m ++ evs ∧
        Forall (λ r, r = WarnStr clash_message) ws ∧
        evs `prefix_of` [EvInit; EvGetGlobalExperiment; EvExperiment kw]
  end.
Proof.
  unfold activation, mbind, M_bind, client, get_self. cbn.
  destruct (comet_ml_init (comet_ml m)) as [[[]|e] c1] eqn:Hi; cbn.
  2:{ split; [by eapply throws_in_init|]. split; [done|].
      exists [], [EvInit]. rewrite app_nil_r. repeat split; [constructor|].
      by exists [EvGetGlobalExperiment; EvExperiment (_comet_args (self m))]. }
  destruct (comet_ml_get_global_experiment c1) as [[g|e] c2] eqn:Hg; cbn.
  2:{ split; [by eapply throws_in_get_global_experiment|]. split; [done|].
      exists [], [EvInit; EvGetGlobalExperiment].
      rewrite app_nil_r, <- app_assoc. repeat split; [constructor|].
      by exists [EvExperiment (_comet_args (self m))]. }
  destruct g as [g|]; cbn;
    destruct (comet_ml_Experiment _ c2) as [[h|e] c3] eqn:He; cbn.
  - exists (Some g), h. rewrite <- !app_assoc. repeat split; try done.
    by exists c1, c2.
  - split; [by eapply throws_in_Experiment|]. split; [done|].
    exists [WarnStr clash_message],
           [EvInit; EvGetGlobalExperiment; EvExperiment (_comet_args (self m))].
    rewrite <- !app_assoc. repeat split; [by repeat constructor | done].
  - exists None, h. rewrite <- !app_assoc, app_nil_r. repeat split; try done.
    by exists c1, c2.
  - split; [by eapply throws_in_Experiment|]. split; [done|].
    exists [],
           [EvInit; EvGetGlobalExperiment; EvExperiment (_comet_args (self m))].
    rewrite <- !app_assoc, app_nil_r. repeat split; [constructor | done].
Qed.

(** *** The wrapped functions *)

(** They leave the object and the log alone, and call nothing but one
    method of [self._experiment]. *)
Lemma wrapped_frame name a m :
  let m' := (wrapped comet_installed name a m).2 in
  self m' = self m ∧ logged m' = logged m ∧
  ∃ evs, trace m' = trace m ++ evs ∧ no_Experiment evs.
Proof.
  assert (Hnil : ∃ evs, trace m = trace m ++ evs ∧ no_Experiment evs).
  { exists []. rewrite app_nil_r. split; [done | constructor]. }
  destruct name; cbn; unfold end__wrapped__, forward;
    (destruct (bind_args _ a) as [vs|]; [|by cbn]);
    unfold mbind, M_bind, get_experiment, client, comet_ml_name; cbn;
    (destruct (_experiment (self m)) as [e|]; [|by cbn]);
    destruct (experiment_method e _ _ (comet_ml m)) as [[v|x] c]; cbn;
    try destruct comet_installed; cbn;
    (split; [done|]; split; [done|]);
    eexists [_]; (split; [done|]); by repeat constructor.
Qed.

(** *** The environment is deterministic *)

Lemma succeeds_throws_excl kw (c : comet_ml_module L) g h c' e :
  activation_succeeds kw c g h c' → activation_throws kw c e → False.
Proof.
  intros (c1 & c2 & Hi & Hg & He) [? Hi' | ? ? Hi' Hg' | ? ? ? ? Hi' Hg' He'];
    congruence.
Qed.

Lemma throws_unique kw (c : comet_ml_module L) e e' :
  activation_throws kw c e → activation_throws kw c e' → e = e'.
Proof.
  intros [? Hi | ? ? Hi Hg | ? ? ? ? Hi Hg He]
         [? Hi' | ? ? Hi' Hg' | ? ? ? ? Hi' Hg' He']; congruence.
Qed.

(** *** One call, by the state it starts in *)

Lemma method_DISABLED name a m :
  _logging (self m) = Some false →
  method comet_installed name a m = (Returns VNone, m).
Proof. rewrite method_unfold. apply wrapper_DISABLED. Qed.

Lemma method_ACTIVE name a m :
  _logging (self m) = Some true →
  method comet_installed name a m = wrapped comet_installed name a m.
Proof. rewrite method_unfold. apply wrapper_ACTIVE. Qed.

Lemma method_not_installed name a m :
  _logging (self m) = None → comet_installed = false →
  method comet_installed name a m = (Returns VNone, m).
Proof. rewrite method_unfold. apply wrapper_not_installed. Qed.

Lemma method_activates name a m g h c' :
  _logging (self m) = None → comet_installed = true →
  activation_succeeds (_comet_args (self m)) (comet_ml m) g h c' →
  method comet_installed name a m =
    wrapped comet_installed name a
      (Machine (Logger (Some true) (_comet_args (self m)) (Some h)) c'
         (logged m ++ (if g is Some _ then [WarnStr clash_message] else []))
         (trace m ++ [EvInit; EvGetGlobalExperiment;
                      EvExperiment (_comet_args (self m))])).
Proof.
  intros Hs Hi Hok. rewrite method_unfold, wrapper_UNINITIALIZED by done.
  rewrite (activation_returns _ g h c') by exact Hok. reflexivity.
Qed.

Lemma method_disables name a m e :
  _logging (self m) = None → comet_installed = true →
  activation_throws (_comet_args (self m)) (comet_ml m) e →
  ∃ m', method comet_installed name a m = (Returns VNone, m') ∧
    self m' = Logger (Some false) (_comet_args (self m)) (_experiment (self m)) ∧
    (∃ ws, logged m' = logged m ++ ws ++ [WarnExn e] ∧
           Forall (λ r, r = WarnStr clash_message) ws) ∧
    (∃ evs, trace m' = trace m ++ evs ∧
            evs `prefix_of` [EvInit; EvGetGlobalExperiment;
                             EvExperiment (_comet_args (self m))]).
Proof.
  intros Hs Hi Hthrow. rewrite method_unfold, wrapper_UNINITIALIZED by done.
  generalize (activation_inv (with_logging (Some false) m)).
  destruct (activation (with_logging (Some false) m)) as [[[]|e'] m1];
    cbn; intros Hinv.
  - destruct Hinv as (g & h & Hok & _).
    exfalso. eapply succeeds_throws_excl; [exact Hok | exact Hthrow].
  - destruct Hinv as (Hthrow' & Hself & ws & evs & Hlog & Htr & Hws & Hevs).
    assert (e' = e) as -> by (eapply throws_unique; [exact Hthrow' | exact Hthrow]).
    cbn.
    rewrite Hself. cbn. eexists. split; [reflexivity|]. cbn.
    split; [done|].
    split; [exists ws; by rewrite Hlog, <- app_assoc | by exists evs].
Qed.

(** *** Sequences of calls *)

Lemma activation_total kw (c : comet_ml_module L) :
  (∃ g h c', activation_succeeds kw c g h c') ∨ (∃ e, activation_throws kw c e).
Proof.
  destruct (comet_ml_init c) as [[[]|e] c1] eqn:Hi;
    [|right; exists e; by eapply throws_in_init].
  destruct (comet_ml_get_global_experiment c1) as [[g|e] c2] eqn:Hg;
    [|right; exists e; by eapply throws_in_get_global_experiment].
  destruct (comet_ml_Experiment kw c2) as [[h|e] c3] eqn:He;
    [left; exists g, h, c3; by exists c1, c2
    |right; exists e; by eapply throws_in_Experiment].
Qed.

Lemma run_snd_cons name a rest m :
  (run comet_installed ((name, a) :: rest) m).2 =
  (run comet_installed rest (method comet_installed name a m).2).2.
Proof.
  cbn. destruct (method _ _ _ _) as [r m']. cbn.
  destruct (run _ rest m') as [rs m'']. reflexivity.
Qed.

Lemma run_DISABLED calls m :
  _logging (self m) = Some false →
  run comet_installed calls m = (map (λ _, Returns VNone) calls, m).
Proof.
  intros Hs. induction calls as [|[name a] rest IH]; [done|].
  cbn. rewrite method_DISABLED, IH by done. reflexivity.
Qed.

Lemma method_keeps_ACTIVE name a m :
  _logging (self m) = Some true →
  self (method comet_installed name a m).2 = self m.
Proof.
  intros Hs. rewrite method_ACTIVE by done.
  apply (wrapped_frame name a m).
Qed.

Lemma states_DISABLED calls m :
  _logging (self m) = Some false →
  Forall (λ s, s = DISABLED) (states comet_installed calls m).
Proof.
  revert m. induction calls as [|[name a] rest IH]; intros m Hs; cbn;
    (constructor; [unfold state_of; by rewrite Hs|]); [constructor|].
  apply IH. by rewrite method_DISABLED.
Qed.

Lemma states_ACTIVE calls m :
  _logging (self m) = Some true →
  Forall (λ s, s = ACTIVE) (states comet_installed calls m).
Proof.
  revert m. induction calls as [|[name a] rest IH]; intros m Hs; cbn;
    (constructor; [unfold state_of; by rewrite Hs|]); [constructor|].
  apply IH. by rewrite method_keeps_ACTIVE.
Qed.

Lemma states_stable calls m i j si sj :
  i ≤ j →
  states comet_installed calls m !! i = Some si →
  states comet_installed calls m !! j = Some sj →
  (si = DISABLED → sj = DISABLED) ∧ (si = ACTIVE → sj = ACTIVE).
Proof.
  revert calls m j. induction i as [|i IH]; intros calls m j Hij Hi Hj.
  - assert (si = state_of (self m)) as ->
      by (destruct calls as [|[??]?]; cbn in Hi; congruence).
    unfold state_of.
    split; intros Hs; destruct (_logging (self m)) as [[]|] eqn:E; try done.
    + pose proof (states_DISABLED calls m E) as HF.
      rewrite Forall_lookup in HF. by apply (HF j).
    + pose proof (states_ACTIVE calls m E) as HF.
      rewrite Forall_lookup in HF. by apply (HF j).
  - destruct j as [|j]; [lia|].
    destruct calls as [|[name a] rest]; [done|]. cbn in Hi, Hj.
    eapply IH; [|exact Hi|exact Hj]. lia.
Qed.

(** *** Invariants of a guard instance *)

Lemma method_at_most_once name a m :
  at_most_once m → at_most_once (method comet_installed name a m).2.
Proof.
  unfold at_most_once. intros Hinv.
  destruct (_logging (self m)) as [[]|] eqn:Hs.
  - rewrite method_keeps_ACTIVE, Hs by done.
    rewrite method_ACTIVE by done.
    destruct (wrapped_frame name a m) as (_ & _ & evs & Ht & Hn).
    by rewrite (Experiment_calls_frame _ _ _ Ht Hn).
  - rewrite method_DISABLED by done. cbn. by rewrite Hs.
  - destruct (bool_dec comet_installed true) as [Hci|Hci];
      [|apply not_true_is_false in Hci;
        rewrite method_not_installed by done; cbn; by rewrite Hs].
    destruct (activation_total (_comet_args (self m)) (comet_ml m))
      as [(g & h & c' & Hok) | (e & Hthrow)].
    + rewrite (method_activates _ _ _ g h c') by done.
      set (m1 := Machine _ _ _ _).
      destruct (wrapped_frame name a m1) as (Hself & _ & evs & Ht & Hn).
      rewrite Hself, (Experiment_calls_frame _ _ _ Ht Hn).
      rewrite (Experiment_calls_app m m1 _ eq_refl), Hinv.
      rewrite activation_events. cbn. lia.
    + destruct (method_disables name a m e Hs Hci Hthrow)
        as (m' & -> & Hself & _ & evs & Ht & Hpre).
      cbn. rewrite Hself. cbn.
      rewrite (Experiment_calls_app _ _ _ Ht), Hinv.
      pose proof (prefix_length _ _
        (filter_prefix (λ ev, is_EvExperiment ev = true) _ _ Hpre)) as Hlen.
      rewrite activation_events in Hlen. cbn in Hlen. lia.
Qed.

Lemma run_at_most_once calls m :
  at_most_once m → at_most_once (run comet_installed calls m).2.
Proof.
  revert m. induction calls as [|[name a] rest IH]; intros m Hinv; [done|].
  rewrite run_snd_cons. by apply IH, method_at_most_once.
Qed.

Lemma method_well_formed name a m :
  well_formed comet_installed m →
  well_formed comet_installed (method comet_installed name a m).2.
Proof.
  unfold well_formed. intros Hinv.
  destruct (_logging (self m)) as [[]|] eqn:Hs.
  - rewrite method_keeps_ACTIVE by done. by rewrite Hs.
  - rewrite method_DISABLED by done. cbn. by rewrite Hs.
  - destruct (bool_dec comet_installed true) as [Hci|Hci];
      [|apply not_true_is_false in Hci;
        rewrite method_not_installed by done; cbn; by rewrite Hs].
    destruct (activation_total (_comet_args (self m)) (comet_ml m))
      as [(g & h & c' & Hok) | (e & Hthrow)].
    + rewrite (method_activates _ _ _ g h c') by done.
      match goal with |- context [wrapped _ _ _ ?m1] =>
        destruct (wrapped_frame name a m1) as (Hself & _) end.
      rewrite Hself. cbn. by eauto.
    + destruct (method_disables name a m e Hs Hci Hthrow)
        as (m' & -> & Hself & _).
      cbn. rewrite Hself. cbn. done.
Qed.

Lemma run_well_formed calls m :
  well_formed comet_installed m →
  well_formed comet_installed (run comet_installed calls m).2.
Proof.
  revert m. induction calls as [|[name a] rest IH]; intros m Hinv; [done|].
  rewrite run_snd_cons. by apply IH, method_well_formed.
Qed.

(** What the constructor returns is never active. *)
Lemma init_not_ACTIVE comet kw obj :
  __init__ comet_installed comet kw = Returns obj → _logging obj ≠ Some true.
Proof.
  unfold __init__. repeat case_match; intros; simplify_eq; done.
Qed.

Lemma init_comet_args comet kw obj :
  __init__ comet_installed comet kw = Returns obj →
  _comet_args obj = kw ∧ _experiment obj = None.
Proof.
  unfold __init__. repeat case_match; intros; by simplify_eq.
Qed.

(** *** Single calls in detail *)

Lemma bind_args_end a vs : bind_args sig_end a = Some vs → vs = [].
Proof.
  unfold bind_args. case_bool_decide; [|done].
  cbn. destruct (positional a); intros; by simplify_eq.
Qed.

Lemma bind_args_end_plain : bind_args sig_end (Args [] ∅) = Some [].
Proof. vm_compute. reflexivity. Qed.

(** The call a wrapped function makes, for arguments that fit *)
Lemma wrapped_call name a vs h m :
  _experiment (self m) = Some h →
  bind_args (signature name) a = Some vs →
  ∃ k, ∀ r c',
    experiment_method h name vs (comet_ml m) = (r, c') →
    wrapped comet_installed name a m =
      match r with
      | Raises e =>
          (Raises e,
           Machine (self m) c' (logged m) (trace m ++ [EvMethod h name vs]))
      | Returns _ =>
          k (Machine (self m) c' (logged m) (trace m ++ [EvMethod h name vs]))
      end.
Proof.
  intros Hh Hb.
  destruct name; cbn in *; unfold end__wrapped__, forward; cbn;
    [pose proof (bind_args_end _ _ Hb) as ->|..];
    rewrite Hb; unfold mbind, M_bind, get_experiment, client; cbn;
    rewrite Hh; eexists (λ m1, _); intros r c' ->; cbn;
    destruct r; reflexivity.
Qed.

(** The [try] block once [init()] and [get_global_experiment()] have
    returned *)
Lemma activation_after_get_global m c1 g c2 :
  comet_ml_init (comet_ml m) = (Returns (), c1) →
  comet_ml_get_global_experiment c1 = (Returns g, c2) →
  activation m =
    let kw := _comet_args (self m) in
    let lg := logged m ++ (if g is Some _ then [WarnStr clash_message] else []) in
    let tr := trace m ++ [EvInit; EvGetGlobalExperiment; EvExperiment kw] in
    match comet_ml_Experiment kw c2 with
    | (Returns h, c3) =>
        (Returns (), Machine (Logger (Some true) kw (Some h)) c3 lg tr)
    | (Raises e, c3) => (Raises e, Machine (self m) c3 lg tr)
    end.
Proof.
  intros Hi Hg. unfold activation, mbind, M_bind, client, get_self. cbn.
  rewrite Hi. cbn. rewrite Hg. cbn.
  destruct g as [g0|]; cbn;
    destruct (comet_ml_Experiment _ c2) as [[h|e] c3]; cbn;
    rewrite <- ?app_assoc, ?app_nil_r; reflexivity.
Qed.

Lemma clash_count_message :
  length (filter (λ r, is_clash r = true) [WarnStr clash_message]) = 1.
Proof. vm_compute. reflexivity. Qed.

Lemma clash_count_exn e :
  length (filter (λ r, is_clash r = true) [WarnExn e]) = 0.
Proof. rewrite filter_cons. by destruct (decide _). Qed.

Lemma clash_warnings_app m m' ws :
  logged m' = logged m ++ ws →
  clash_warnings m' =
    clash_warnings m + length (filter (λ r, is_clash r = true) ws).
Proof.
  intros Hl. unfold clash_warnings. by rewrite Hl, filter_app, length_app.
Qed.

(** [end()] on an object that holds the experiment [h] *)
Lemma end_wrapped_run h m :
  _experiment (self m) = Some h → comet_installed = true →
  end__wrapped__ comet_installed (Args [] ∅) m =
    let tr := trace m ++ [EvMethod h m_end []] in
    match experiment_method h m_end [] (comet_ml m) with
    | (Returns _, c') =>
        (Returns VNone,
         Machine (self m) (CometModule None (internals c')) (logged m) tr)
    | (Raises e, c') => (Raises e, Machine (self m) c' (logged m) tr)
    end.
Proof.
  intros Hh Hci. unfold end__wrapped__. rewrite bind_args_end_plain.
  unfold mbind, M_bind, get_experiment, client, comet_ml_name. cbn.
  rewrite Hh, Hci.
  destruct (experiment_method h m_end [] (comet_ml m)) as [[v|x] c1];
    reflexivity.
Qed.

End Wrapper.

(** ** The properties of the specification *)

Section Properties.
Context {L : Type} `{!CometML L}.
Variable comet_installed : bool.
Implicit Types (m : machine L) (a : call_args) (c : comet_ml_module L).

(** C1, as amended.  While the guard is ACTIVE, an exception raised by the
    method of the underlying experiment is not caught: the call raises the
    same exception to its caller, nothing is logged, and the guard stays
    ACTIVE.  This holds for each of the seven operations. *)
Theorem C1_client_exception_propagates name a vs h e c' m :
  state_of (self m) = ACTIVE →
  _experiment (self m) = Some h →
  bind_args (signature name) a = Some vs →
  experiment_method h name vs (comet_ml m) = (Raises e, c') →
  method comet_installed name a m =
    (Raises e,
     Machine (self m) c' (logged m) (trace m ++ [EvMethod h name vs])).
Proof.
  intros Hs Hh Hb Hraise.
  assert (_logging (self m) = Some true) as Hl.
  { unfold state_of in Hs. by destruct (_logging (self m)) as [[]|]. }
  rewrite method_ACTIVE by exact Hl.
  destruct (wrapped_call comet_installed name a vs h m Hh Hb) as [k Hk].
  exact (Hk _ _ Hraise).
Qed.

(** C2.  A guard constructed with [comet=True] while comet_ml is installed,
    whose first call finds the activation raising [e]: the call returns
    [None], the guard is DISABLED, [e] is the last record handed to
    [logging.warning], and from then on every sequence of calls, of whatever
    operations, returns [None] each time and leaves the machine as it is. *)
Theorem C2_failed_activation_disables kw obj c e name a :
  __init__ true (VBool true) kw = Returns obj →
  activation_throws kw c e →
  ∃ m', method true name a (start obj c) = (Returns VNone, m') ∧
    state_of (self m') = DISABLED ∧
    last (logged m') = Some (WarnExn e) ∧
    ∀ calls, run true calls m' = (map (λ _, Returns VNone) calls, m').
Proof.
  intros Hinit Hthrow. cbn in Hinit. simplify_eq.
  destruct (method_disables true name a (start (Logger None kw None) c) e)
    as (m' & Hm & Hself & (ws & Hlog & _) & _); [done..|].
  exists m'. split; [exact Hm|]. cbn in Hself, Hlog.
  split; [unfold state_of; by rewrite Hself|].
  split; [by rewrite Hlog, last_snoc|].
  intros calls. apply run_DISABLED. by rewrite Hself.
Qed.

(** Whatever the flag, the configuration and the library: a guard instance
    calls [comet_ml.Experiment(...)] once at most. *)
Lemma Experiment_at_most_once comet kw obj c calls :
  __init__ comet_installed comet kw = Returns obj →
  Experiment_calls (run comet_installed calls (start obj c)).2 ≤ 1.
Proof.
  intros _.
  assert (at_most_once (run comet_installed calls (start obj c)).2) as Hle.
  { apply run_at_most_once. unfold at_most_once. cbn.
    destruct (_logging obj); cbn; lia. }
  unfold at_most_once in Hle. destruct (_logging _); lia.
Qed.

(** C3.  A guard constructed with [comet=True] while comet_ml is installed,
    whose activation succeeds: after any non-empty sequence of calls,
    [comet_ml.Experiment(...)] has been called exactly once. *)
Theorem C3_one_session kw obj c g h c' calls :
  __init__ true (VBool true) kw = Returns obj →
  activation_succeeds kw c g h c' →
  calls ≠ [] →
  Experiment_calls (run true calls (start obj c)).2 = 1.
Proof.
  intros Hinit Hok Hne. cbn in Hinit. simplify_eq.
  destruct calls as [|[name a] rest]; [done|]. clear Hne.
  set (m0 := start (Logger None kw None) c).
  assert (at_most_once (run true ((name, a) :: rest) m0).2) as Hle
    by (by apply run_at_most_once).
  assert (1 ≤ Experiment_calls (run true ((name, a) :: rest) m0).2) as Hge.
  { rewrite run_snd_cons.
    rewrite (method_activates true name a m0 g h c') by done.
    set (m1 := Machine _ _ _ _).
    destruct (wrapped_frame true name a m1) as (Hself & _ & evs & Ht & Hn).
    set (m2 := (wrapped true name a m1).2) in *.
    assert (Experiment_calls m2 = 1) as H2.
    { rewrite (Experiment_calls_frame _ _ _ Ht Hn).
      by rewrite (Experiment_calls_app m0 m1 _ eq_refl). }
    assert (_logging (self m2) = Some true) as Hact by (by rewrite Hself).
    clearbody m2. clear -H2 Hact.
    revert m2 H2 Hact. induction rest as [|[n b] rest IH]; intros m2 H2 Hact.
    - cbn. lia.
    - rewrite run_snd_cons. apply IH.
      + rewrite method_ACTIVE by done.
        destruct (wrapped_frame true n b m2) as (_ & _ & evs & Ht & Hn).
        by rewrite (Experiment_calls_frame _ _ _ Ht Hn).
      + by rewrite method_keeps_ACTIVE. }
  unfold at_most_once in Hle. destruct (_logging _); lia.
Qed.

(** C4.  Along any sequence of calls, from any machine: a guard that is
    DISABLED at some point is not ACTIVE at any later point, and a guard
    that is ACTIVE at some point is not UNINITIALIZED at any later point. *)
Theorem C4_state_transitions calls m i j si sj :
  i ≤ j →
  states comet_installed calls m !! i = Some si →
  states comet_installed calls m !! j = Some sj →
  (si = DISABLED → sj ≠ ACTIVE) ∧ (si = ACTIVE → sj ≠ UNINITIALIZED).
Proof.
  intros Hij Hi Hj.
  destruct (states_stable comet_installed calls m i j si sj Hij Hi Hj)
    as [Hd Ha].
  split; intros Hs; [rewrite (Hd Hs) | rewrite (Ha Hs)]; discriminate.
Qed.

(** C5, as amended.  Constructed with [comet=False], the guard is DISABLED
    at once; the forwarded configuration is nevertheless stored in the
    object, as [_comet_args]. *)
Theorem C5_disabled_keeps_config kw :
  ∃ obj, __init__ comet_installed (VBool false) kw = Returns obj ∧
    state_of obj = DISABLED ∧ _comet_args obj = kw.
Proof. by eexists. Qed.

(** C6.  Constructed with [comet=False], every sequence of calls, whatever
    the operations and whatever the arguments, returns [None] each time and
    leaves the whole machine untouched: nothing is called in comet_ml,
    nothing is logged, nothing is raised. *)
Theorem C6_disabled_is_noop kw c calls :
  ∃ obj, __init__ comet_installed (VBool false) kw = Returns obj ∧
    run comet_installed calls (start obj c) =
      (map (λ _, Returns VNone) calls, start obj c).
Proof. eexists. split; [reflexivity|]. by apply run_DISABLED. Qed.

(** C7.  An activation attempt in which [get_global_experiment()] returns
    an experiment: the clash warning is logged exactly once during the
    call, [comet_ml.Experiment] is still called with the stored
    configuration, and when that returns the guard is ACTIVE and holds the
    new experiment. *)
Theorem C7_clash_warning_once name a m c1 g c2 :
  state_of (self m) = UNINITIALIZED →
  comet_ml_init (comet_ml m) = (Returns (), c1) →
  comet_ml_get_global_experiment c1 = (Returns (Some g), c2) →
  let m' := (method true name a m).2 in
  clash_warnings m' = clash_warnings m + 1 ∧
  (∃ evs, trace m' =
     trace m ++ [EvInit; EvGetGlobalExperiment;
                 EvExperiment (_comet_args (self m))] ++ evs) ∧
  ∀ h c3, comet_ml_Experiment (_comet_args (self m)) c2 = (Returns h, c3) →
    state_of (self m') = ACTIVE ∧ _experiment (self m') = Some h.
Proof.
  intros Hs Hi Hg.
  assert (_logging (self m) = None) as Hl.
  { unfold state_of in Hs. by destruct (_logging (self m)) as [[]|]. }
  rewrite method_unfold, wrapper_UNINITIALIZED by done.
  rewrite (activation_after_get_global _ c1 (Some g) c2) by done. cbn.
  destruct (comet_ml_Experiment _ c2) as [[h|e] c3]; cbn.
  - rewrite bool_decide_eq_true_2 by done.
    set (m1 := Machine _ _ _ _).
    destruct (wrapped_frame true name a m1) as (Hself & Hlog & evs & Ht & _).
    split; [|split].
    + rewrite (clash_warnings_app m1 _ [] ) by (by rewrite Hlog, app_nil_r).
      by rewrite (clash_warnings_app m m1 [WarnStr clash_message] eq_refl).
    + exists evs. rewrite Ht. unfold m1. cbn. by rewrite <- app_assoc.
    + intros h' c3' [= <- <-]. unfold state_of. by rewrite Hself.
  - rewrite bool_decide_eq_false_2 by done. cbn.
    split; [|split].
    + rewrite !filter_app, !length_app, clash_count_message.
      rewrite (clash_count_exn e). unfold clash_warnings. lia.
    + by exists [].
    + by intros h c3' [=].
Qed.

(** C8.  On a guard that was constructed and used in any way and is ACTIVE,
    [end()] calls [end()] on the experiment the guard holds; when that
    returns, [comet_ml.config.experiment] is [None] afterwards and the call
    returns [None]. *)
Theorem C8_end_clears_global comet kw obj c calls :
  __init__ comet_installed comet kw = Returns obj →
  let m := (run comet_installed calls (start obj c)).2 in
  state_of (self m) = ACTIVE →
  ∃ h, _experiment (self m) = Some h ∧
    trace (end_ comet_installed (Args [] ∅) m).2 =
      trace m ++ [EvMethod h m_end []] ∧
    ∀ v c', experiment_method h m_end [] (comet_ml m) = (Returns v, c') →
      end_ comet_installed (Args [] ∅) m =
        (Returns VNone,
         Machine (self m) (CometModule None (internals c')) (logged m)
                 (trace m ++ [EvMethod h m_end []])).
Proof.
  intros Hinit m Hs.
  assert (_logging (self m) = Some true) as Hl.
  { unfold state_of in Hs. by destruct (_logging (self m)) as [[]|]. }
  assert (well_formed comet_installed m) as Hwf.
  { apply run_well_formed. intros Hact. cbn in Hact.
    by destruct (init_not_ACTIVE _ _ _ _ Hinit). }
  destruct (Hwf Hl) as [Hci [h Hh]]. exists h. split; [exact Hh|].
  unfold end_. rewrite wrapper_ACTIVE, (end_wrapped_run _ h) by done. cbn.
  destruct (experiment_method h m_end [] (comet_ml m)) as [[v|e] c']; cbn;
    (split; [done|]); intros ? ? ?; by simplify_eq.
Qed.

(** The body of the constructor: with comet_ml not installed and
    [comet=True] it raises the "Comet not installed" exception and returns no
    object, and it raises in no other way. *)
Lemma init_raises_missing_dependency :
  (∀ kw, __init__ false (VBool true) kw = Raises missing_dependency) ∧
  (∀ installed comet kw e,
     __init__ installed comet kw = Raises e →
     e = missing_dependency ∧ installed = false ∧ py_eq_bool comet true = true).
Proof.
  split; [done|]. intros installed comet kw e. unfold __init__.
  destruct (py_eq_bool comet false); [done|].
  destruct (py_eq_bool comet true), installed; cbn; by intros [= <-].
Qed.

(** C10.  [end()] as the first call on a guard constructed with
    [comet=True] while comet_ml is installed, when the activation succeeds
    with the new experiment [h]: the calls into comet_ml are [init()],
    [get_global_experiment()], [Experiment] with the stored configuration and
    then [h.end()], in
    this order and nothing else; the guard holds [h]. *)
Theorem C10_end_activates_then_ends kw obj c g h c' :
  __init__ true (VBool true) kw = Returns obj →
  activation_succeeds kw c g h c' →
  let m' := (end_ true (Args [] ∅) (start obj c)).2 in
  trace m' = [EvInit; EvGetGlobalExperiment; EvExperiment kw;
              EvMethod h m_end []] ∧
  state_of (self m') = ACTIVE ∧ _experiment (self m') = Some h ∧
  ∀ v c'', experiment_method h m_end [] c' = (Returns v, c'') →
    comet_ml m' = CometModule None (internals c'').
Proof.
  intros Hinit Hok. cbn in Hinit. simplify_eq.
  change (end_ true) with (method true m_end).
  rewrite (method_activates true m_end _ _ g h c') by done.
  cbn [wrapped]. rewrite (end_wrapped_run true h) by done. cbn.
  destruct (experiment_method h m_end [] c') as [[v|e] c'']; cbn;
    (repeat split; [done..|]); intros ? ? ?; by simplify_eq.
Qed.

End Properties.

(** ** Calls and their arguments in detail *)

Section Calls.
Context {L : Type} `{!CometML L}.
Variable comet_installed : bool.
Implicit Types (m : machine L) (a : call_args) (c : comet_ml_module L).

(** A wrapped function on an object that holds the experiment [h] *)
Lemma wrapped_run name a h m :
  _experiment (self m) = Some h → comet_installed = true →
  wrapped comet_installed name a m =
    match bind_args (signature name) a with
    | None => (Raises TypeError, m)
    | Some vs =>
        let tr := trace m ++ [EvMethod h name vs] in
        match experiment_method h name vs (comet_ml m) with
        | (Returns _, c') =>
            (Returns VNone, Machine (self m) (after_method name c') (logged m) tr)
        | (Raises e, c') => (Raises e, Machine (self m) c' (logged m) tr)
        end
    end.
Proof.
  intros Hh Hci.
  destruct name; cbn [wrapped signature]; unfold end__wrapped__, forward;
    (destruct (bind_args _ a) as [vs|] eqn:Hb; [|reflexivity]);
    [pose proof (bind_args_end _ _ Hb) as ->|..];
    unfold mbind, M_bind, get_experiment, client, comet_ml_name; cbn;
    rewrite Hh, ?Hci;
    destruct (experiment_method h _ _ (comet_ml m)) as [[v|x] c1]; reflexivity.
Qed.

(** Whatever the object holds, a wrapped function leaves it and the log
    alone, and calls methods of the held experiment only. *)
Lemma wrapped_events name a h m :
  _experiment (self m) = Some h →
  let m' := (wrapped comet_installed name a m).2 in
  self m' = self m ∧ logged m' = logged m ∧
  ∃ evs, trace m' = trace m ++ evs ∧ Forall (on_experiment h) evs.
Proof.
  intros Hh.
  assert (Hnil : ∃ evs, trace m = trace m ++ evs ∧ Forall (on_experiment h) evs).
  { exists []. rewrite app_nil_r. split; [done | constructor]. }
  destruct name; cbn; unfold end__wrapped__, forward;
    (destruct (bind_args _ a) as [vs|]; [|by cbn]);
    unfold mbind, M_bind, get_experiment, client, comet_ml_name; cbn;
    rewrite Hh;
    destruct (experiment_method h _ _ (comet_ml m)) as [[v|x] c1]; cbn;
    try destruct comet_installed; cbn;
    (split; [done|]; split; [done|]);
    eexists [_]; (split; [done|]); repeat constructor; by eexists _, _.
Qed.

(** The clash warning is all the [try] block logs, and once at most. *)
Lemma activation_log m :
  ∃ ws, logged (activation m).2 = logged m ++ ws ∧
        (ws = [] ∨ ws = [WarnStr clash_message]).
Proof.
  unfold activation, mbind, M_bind, client, get_self. cbn.
  destruct (comet_ml_init (comet_ml m)) as [[[]|x] c1]; cbn;
    [|exists []; by rewrite app_nil_r; auto].
  destruct (comet_ml_get_global_experiment c1) as [[g|x] c2]; cbn;
    [|exists []; by rewrite app_nil_r; auto].
  destruct g as [g|]; cbn;
    destruct (comet_ml_Experiment _ c2) as [[h|x] c3]; cbn;
    first [ by exists [WarnStr clash_message]; auto
          | exists []; by rewrite app_nil_r; auto ].
Qed.

Lemma method_disables_log name a m e :
  _logging (self m) = None → comet_installed = true →
  activation_throws (_comet_args (self m)) (comet_ml m) e →
  ∃ ws, logged (method comet_installed name a m).2 =
          logged m ++ ws ++ [WarnExn e] ∧
        (ws = [] ∨ ws = [WarnStr clash_message]).
Proof.
  intros Hs Hci Hthrow.
  rewrite method_unfold, wrapper_UNINITIALIZED by done.
  destruct (activation_log (with_logging (Some false) m)) as (ws & Hlog & Hws).
  generalize (activation_inv (with_logging (Some false) m)).
  destruct (activation (with_logging (Some false) m)) as [[[]|e'] m1];
    cbn; intros Hinv.
  - destruct Hinv as (g & h & Hok & _).
    exfalso. eapply succeeds_throws_excl; [exact Hok | exact Hthrow].
  - destruct Hinv as (Hthrow' & Hself & _).
    assert (e' = e) as -> by (eapply throws_unique; [exact Hthrow' | exact Hthrow]).
    rewrite Hself. cbn. exists ws. cbn in Hlog.
    by rewrite Hlog, <- app_assoc.
Qed.

(** *** Binding of arguments *)

Lemma bind_params_length sig pos kw vs :
  bind_params sig pos kw = Some vs → length vs = length sig.
Proof.
  revert pos vs. induction sig as [|[n d] sig IH]; intros pos vs Hb; cbn in Hb.
  - destruct pos; by simplify_eq.
  - destruct pos as [|v pos], (kw !! n) as [w|], d as [d|]; simplify_option_eq;
      cbn; f_equal; by eapply IH.
Qed.

Lemma bind_params_prefix sig pos kw vs :
  bind_params sig pos kw = Some vs → pos `prefix_of` vs.
Proof.
  revert pos vs. induction sig as [|[n d] sig IH]; intros pos vs Hb; cbn in Hb.
  - destruct pos; by simplify_eq.
  - destruct pos as [|v pos]; [apply prefix_nil|].
    destruct (kw !! n); simplify_option_eq. by apply prefix_cons, IH.
Qed.

Lemma bind_params_keyword sig pos kw vs i n d v :
  bind_params sig pos kw = Some vs →
  sig !! i = Some (n, d) → kw !! n = Some v → vs !! i = Some v.
Proof.
  revert pos vs i.
  induction sig as [|[n' d'] sig IH]; intros pos vs i Hb Hi Hk; [done|].
  cbn in Hb. destruct i as [|i]; cbn in Hi.
  - simplify_eq. destruct pos as [|w pos]; rewrite Hk in Hb; [|done].
    by simplify_option_eq.
  - destruct pos as [|w pos], (kw !! n') as [w'|], d' as [d'|];
      simplify_option_eq; by eapply IH.
Qed.

Lemma bind_params_default sig pos kw vs i n d :
  bind_params sig pos kw = Some vs →
  sig !! i = Some (n, Some d) → length pos ≤ i → kw !! n = None →
  vs !! i = Some d.
Proof.
  revert pos vs i.
  induction sig as [|[n' d'] sig IH]; intros pos vs i Hb Hi Hle Hk; [done|].
  cbn in Hb. destruct i as [|i]; cbn in Hi.
  - simplify_eq. destruct pos as [|w pos]; [|cbn in Hle; lia].
    rewrite Hk in Hb. by simplify_option_eq.
  - destruct pos as [|w pos], (kw !! n') as [w'|], d' as [d'|];
      simplify_option_eq; eapply IH; eauto; cbn in *; lia.
Qed.





Lemma bind_params_None sig pos kw :
  bind_params sig pos kw = None →
  length sig < length pos ∨
  (∃ i n d, sig !! i = Some (n, d) ∧ i < length pos ∧ is_Some (kw !! n)) ∨
  (∃ i n, sig !! i = Some (n, None) ∧ length pos ≤ i ∧ kw !! n = None).
Proof.
  revert pos. induction sig as [|[n d] sig IH]; intros pos Hb; cbn in Hb.
  - destruct pos; [done|]. left. cbn. lia.
  - destruct pos as [|v pos].
    + assert (kw !! n = None ∧ d = None ∨ bind_params sig [] kw = None)
        as [[Hk ->] | Hrec].
      { destruct (kw !! n), d; simplify_option_eq; auto;
          destruct (bind_params sig [] kw); simplify_eq/=; auto. }
      * right. right. exists 0, n. cbn. by eauto with lia.
      * destruct (IH [] Hrec) as [Hlen | [(i & n' & d' & _ & Hlt & _) | (i & n' & Hi & _ & Hk)]];
          [cbn in Hlen; lia | cbn in Hlt; lia |].
        right. right. exists (S i), n'. cbn. by eauto with lia.
    + destruct (kw !! n) as [w|] eqn:Hk.
      { right. left. exists 0, n, d. cbn. by eauto with lia. }
      assert (bind_params sig pos kw = None) as Hrec
        by (destruct (bind_params sig pos kw); by simplify_eq/=).
      destruct (IH pos Hrec) as [Hlen | [(i & n' & d' & Hi & Hlt & Hk') | (i & n' & Hi & Hle & Hk')]].
      * left. cbn. lia.
      * right. left. exists (S i), n', d'. cbn. by eauto with lia.
      * right. right. exists (S i), n'. cbn. by eauto with lia.
Qed.

Lemma bind_args_None sig a : bind_args sig a = None → misfit sig a.
Proof.
  unfold bind_args, misfit. case_bool_decide as Hsub.
  - intros Hb. destruct (bind_params_None _ _ _ Hb) as [?|[?|?]]; auto.
  - intros _. right. left.
    destruct (decide (dom (keywords a) ∖ list_to_set sig.*1 = (∅ : gset string)))
      as [Hempty|Hne].
    + exfalso. apply Hsub. intros n Hn.
      destruct (decide (n ∈ (list_to_set sig.*1 : gset string))) as [|Hnot];
        [done|].
      assert (n ∈ dom (keywords a) ∖ list_to_set sig.*1) as Hin
        by (by apply elem_of_difference).
      rewrite Hempty in Hin. by apply not_elem_of_empty in Hin.
    + apply set_choose_L in Hne as [n Hn].
      apply elem_of_difference in Hn as [Hd Hnot].
      exists n. split; [by apply elem_of_dom|].
      intros Hin. apply Hnot. by apply elem_of_list_to_set.
Qed.

End Calls.

(** ** Further properties of the facade *)

Section Further.
Context {L : Type} `{!CometML L}.
Variable comet_installed : bool.
Implicit Types (m : machine L) (a : call_args) (c : comet_ml_module L).

Lemma init_follows_protocol comet kw obj c :
  __init__ comet_installed comet kw = Returns obj →
  follows_protocol kw (start obj c).
Proof.
  intros Hinit. destruct (init_comet_args _ _ _ _ Hinit) as [Hkw _].
  split; [exact Hkw|]. cbn.
  pose proof (init_not_ACTIVE _ _ _ _ Hinit) as Hna.
  destruct (_logging obj) as [[]|]; [done| |done].
  split; [apply prefix_nil|]. exists TypeError. apply sublist_nil_l.
Qed.

Lemma method_follows_protocol kw name a m :
  follows_protocol kw m →
  follows_protocol kw (method comet_installed name a m).2.
Proof.
  intros [Hkw Hm]. destruct (_logging (self m)) as [[]|] eqn:Hs.
  - destruct Hm as [(h & evs & Hh & Ht & Hevs) Hlog].
    rewrite method_ACTIVE by done.
    destruct (wrapped_events comet_installed name a h m Hh)
      as (Hself & Hlog' & evs' & Ht' & Hevs').
    split; [by rewrite Hself|]. rewrite Hself, Hs.
    split; [|by rewrite Hlog'].
    exists h, (evs ++ evs'). split; [done|].
    split; [by rewrite Ht', Ht, app_assoc | by apply Forall_app].
  - rewrite method_DISABLED by done. cbn. split; [done|]. by rewrite Hs.
  - destruct Hm as [Ht Hlog].
    destruct (bool_dec comet_installed true) as [Hci|Hci];
      [|apply not_true_is_false in Hci;
        rewrite method_not_installed by done; cbn;
        split; [done|]; by rewrite Hs].
    destruct (activation_total (_comet_args (self m)) (comet_ml m))
      as [(g & h & c' & Hok) | (e & Hthrow)].
    + rewrite (method_activates _ _ _ _ g h c') by done.
      set (m1 := Machine _ _ _ _).
      destruct (wrapped_events comet_installed name a h m1 eq_refl)
        as (Hself & Hlog' & evs' & Ht' & Hevs').
      split; [by rewrite Hself|]. rewrite Hself. cbn.
      split.
      * exists h, evs'. split; [done|]. split; [|done].
        rewrite Ht'. unfold m1. cbn. by rewrite Ht, Hkw.
      * rewrite Hlog'. unfold m1. cbn. rewrite Hlog. cbn.
        destruct g; [done | apply sublist_nil_l].
    + destruct (method_disables_log comet_installed name a m e Hs Hci Hthrow)
        as (ws & Hlog' & Hws).
      destruct (method_disables comet_installed name a m e Hs Hci Hthrow)
        as (m' & Hm' & Hself & _ & evs & Ht' & Hpre).
      rewrite Hm' in Hlog' |- *. cbn in Hlog' |- *.
      split; [by rewrite Hself|]. rewrite Hself. cbn.
      split; [by rewrite Ht', Ht, <- Hkw|].
      exists e. rewrite Hlog', Hlog. cbn.
      destruct Hws as [-> | ->]; cbn; [by apply sublist_cons|done].
Qed.

Lemma run_follows_protocol kw calls m :
  follows_protocol kw m →
  follows_protocol kw (run comet_installed calls m).2.
Proof.
  revert m. induction calls as [|[name a] rest IH]; intros m Hinv; [done|].
  rewrite run_snd_cons. by apply IH, method_follows_protocol.
Qed.

(** An operation that fits its signature, on an ACTIVE guard whose experiment
    returns: the arguments bound to the parameters are handed to the method
    of the same name of the held experiment, what that method returns is
    dropped and the call returns [None]; the object and the log are
    untouched, and only [end] changes the module, by clearing the slot. *)
Theorem call_is_forwarded name a vs h v c' m :
  state_of (self m) = ACTIVE →
  _experiment (self m) = Some h →
  bind_args (signature name) a = Some vs →
  experiment_method h name vs (comet_ml m) = (Returns v, c') →
  method true name a m =
    (Returns VNone,
     Machine (self m) (after_method name c') (logged m)
             (trace m ++ [EvMethod h name vs])).
Proof.
  intros Hs Hh Hb Hret.
  assert (_logging (self m) = Some true) as Hl.
  { unfold state_of in Hs. by destruct (_logging (self m)) as [[]|]. }
  rewrite method_ACTIVE, (wrapped_run true name a h) by done.
  rewrite Hb. cbn. by rewrite Hret.
Qed.

(** What the experiment receives: one argument per parameter of the method;
    the positional arguments of the caller come first, a keyword argument
    sits at the position of the parameter it names, and a parameter the
    caller did not give carries its default. *)
Theorem forwarded_arguments name a vs :
  bind_args (signature name) a = Some vs →
  length vs = length (signature name) ∧
  positional a `prefix_of` vs ∧
  (∀ i n d v, signature name !! i = Some (n, d) →
     keywords a !! n = Some v → vs !! i = Some v) ∧
  (∀ i n d, signature name !! i = Some (n, Some d) →
     length (positional a) ≤ i → keywords a !! n = None → vs !! i = Some d).
Proof.
  unfold bind_args. case_bool_decide; [|done]. intros Hb.
  split; [by eapply bind_params_length|].
  split; [by eapply bind_params_prefix|].
  split; intros; [by eapply bind_params_keyword | by eapply bind_params_default].
Qed.


(** Without comet_ml, a guard whose construction did not raise (the flag was
    not equal to [True]) never does anything: every sequence of calls
    returns [None] each time and leaves the machine as it is. *)
Theorem not_installed_is_noop comet kw obj c calls :
  __init__ false comet kw = Returns obj →
  run false calls (start obj c) = (map (λ _, Returns VNone) calls, start obj c).
Proof.
  intros Hinit. pose proof (init_not_ACTIVE _ _ _ _ Hinit) as Hna.
  assert (_logging (self (start obj c)) ≠ Some true) as Hm by done.
  generalize dependent (start obj c). clear. intros m Hm.
  induction calls as [|[name a] rest IH]; [done|]. cbn.
  assert (method false name a m = (Returns VNone, m)) as ->.
  { destruct (_logging (self m)) as [[]|] eqn:Hl; [done| |].
    - by apply method_DISABLED.
    - by apply method_not_installed. }
  by rewrite IH.
Qed.

(** With comet_ml installed, every flag that is not equal to [False] gives an
    UNINITIALIZED guard, and its first call, whatever the operation and its
    arguments, decides the state for good: ACTIVE exactly when [init()],
    [get_global_experiment()] and [Experiment] all return, DISABLED exactly
    when one of them raises. *)
Theorem first_call_decides comet kw name a c :
  py_eq_bool comet false = false →
  ∃ obj, __init__ true comet kw = Returns obj ∧
    state_of obj = UNINITIALIZED ∧
    let m' := (method true name a (start obj c)).2 in
    (state_of (self m') = ACTIVE ↔ ∃ g h c', activation_succeeds kw c g h c') ∧
    (state_of (self m') = DISABLED ↔ ∃ e, activation_throws kw c e).
Proof.
  intros Hflag. exists (Logger None kw None).
  split; [unfold __init__; rewrite Hflag; by rewrite andb_false_r|].
  split; [done|]. cbn zeta.
  set (m0 := start (Logger None kw None) c).
  destruct (activation_total kw c) as [(g & h & c' & Hok) | (e & Hthrow)].
  - rewrite (method_activates true name a m0 g h c') by done.
    set (m1 := Machine _ _ _ _).
    destruct (wrapped_frame true name a m1) as (Hself & _).
    unfold state_of. rewrite Hself. cbn.
    split; split; try done; [by eauto|].
    intros [e Hthrow]. exfalso. by eapply succeeds_throws_excl.
  - destruct (method_disables true name a m0 e eq_refl eq_refl Hthrow)
      as (m' & -> & Hself & _).
    unfold state_of. cbn. rewrite Hself. cbn.
    split; split; try done; [|by eauto].
    intros (g & h & c' & Hok). exfalso. by eapply succeeds_throws_excl.
Qed.

(** Once ACTIVE, a guard is never changed again: after any further calls
    the object is the same and holds the same experiment (also after
    [end()]), nothing more has been logged, and all that was called in
    comet_ml are methods of that one experiment. *)
Theorem active_guard_is_frozen calls h m :
  state_of (self m) = ACTIVE →
  _experiment (self m) = Some h →
  let m' := (run comet_installed calls m).2 in
  self m' = self m ∧ logged m' = logged m ∧
  ∃ evs, trace m' = trace m ++ evs ∧ Forall (on_experiment h) evs.
Proof.
  intros Hs Hh.
  assert (_logging (self m) = Some true) as Hl.
  { unfold state_of in Hs. by destruct (_logging (self m)) as [[]|]. }
  clear Hs. cbn zeta. revert m Hh Hl.
  induction calls as [|[name a] rest IH]; intros m Hh Hl.
  - cbn. repeat split. exists []. by rewrite app_nil_r.
  - rewrite run_snd_cons, method_ACTIVE by done.
    destruct (wrapped_events comet_installed name a h m Hh)
      as (Hself & Hlog & evs & Ht & Hevs).
    destruct (IH (wrapped comet_installed name a m).2)
      as (Hself' & Hlog' & evs' & Ht' & Hevs'); [by rewrite Hself..|].
    split; [by rewrite Hself'|]. split; [by rewrite Hlog'|].
    exists (evs ++ evs'). split; [by rewrite Ht', Ht, app_assoc|].
    by apply Forall_app.
Qed.

(** The calls a guard makes into comet_ml, over its whole life and whatever
    it is asked to do: [init()], [get_global_experiment()] and [Experiment]
    with exactly the configuration given to the constructor, in this order
    and once each at most; and, only if the guard is ACTIVE, thereafter
    methods of the one experiment it holds. *)
Theorem call_protocol comet kw obj c calls :
  __init__ comet_installed comet kw = Returns obj →
  let m' := (run comet_installed calls (start obj c)).2 in
  (state_of (self m') ≠ ACTIVE ∧ trace m' `prefix_of` activation_calls kw) ∨
  (state_of (self m') = ACTIVE ∧
   ∃ h evs, _experiment (self m') = Some h ∧
     trace m' = activation_calls kw ++ evs ∧ Forall (on_experiment h) evs).
Proof.
  intros Hinit. cbn zeta.
  destruct (run_follows_protocol kw calls (start obj c)
              (init_follows_protocol _ _ _ c Hinit)) as [_ Hp].
  unfold state_of.
  destruct (_logging (self (run comet_installed calls (start obj c)).2))
    as [[]|].
  - right. split; [done|]. apply Hp.
  - left. split; [done|]. apply Hp.
  - left. split; [done|]. destruct Hp as [-> _]. apply prefix_nil.
Qed.

(** All a guard ever hands to [logging.warning], over its whole life: the
    clash warning, once at most, and then the exception of a failed
    activation, once at most. *)
Theorem at_most_two_warnings comet kw obj c calls :
  __init__ comet_installed comet kw = Returns obj →
  ∃ e, logged (run comet_installed calls (start obj c)).2
         `sublist_of` [WarnStr clash_message; WarnExn e].
Proof.
  intros Hinit.
  destruct (run_follows_protocol kw calls (start obj c)
              (init_follows_protocol _ _ _ c Hinit)) as [_ Hp].
  destruct (_logging (self (run comet_installed calls (start obj c)).2))
    as [[]|].
  - exists TypeError. destruct Hp as [_ Hlog].
    by apply (sublist_inserts_r [WarnExn TypeError]) in Hlog.
  - apply Hp.
  - exists TypeError. destruct Hp as [_ ->]. apply sublist_nil_l.
Qed.

(** How a call on a constructed guard can end, whatever was done with the
    guard before: it returns [None]; or the guard is ACTIVE and the
    arguments do not fit, and it raises [TypeError]; or the guard is ACTIVE
    and it raises the exception that the method of the same name of the held
    experiment has just raised.  Nothing else is ever raised or returned. *)
Theorem call_outcomes comet kw obj c calls name a :
  __init__ comet_installed comet kw = Returns obj →
  let m := (run comet_installed calls (start obj c)).2 in
  let r := (method comet_installed name a m).1 in
  let m' := (method comet_installed name a m).2 in
  r = Returns VNone ∨
  (r = Raises TypeError ∧ misfit (signature name) a ∧
   state_of (self m') = ACTIVE) ∨
  (∃ h vs e c0, r = Raises e ∧ state_of (self m') = ACTIVE ∧
     _experiment (self m') = Some h ∧
     bind_args (signature name) a = Some vs ∧
     experiment_method h name vs c0 = (Raises e, comet_ml m')).
Proof.
  intros Hinit. cbn zeta.
  set (m := (run comet_installed calls (start obj c)).2).
  assert (well_formed comet_installed m) as Hwf.
  { apply run_well_formed. intros Hact. cbn in Hact.
    by destruct (init_not_ACTIVE _ _ _ _ Hinit). }
  clearbody m.
  assert (∀ h m1, _logging (self m1) = Some true → _experiment (self m1) = Some h →
            comet_installed = true →
            let r := (wrapped comet_installed name a m1).1 in
            let m' := (wrapped comet_installed name a m1).2 in
            r = Returns VNone ∨
            (r = Raises TypeError ∧ misfit (signature name) a ∧
             state_of (self m') = ACTIVE) ∨
            (∃ h vs e c0, r = Raises e ∧ state_of (self m') = ACTIVE ∧
               _experiment (self m') = Some h ∧
               bind_args (signature name) a = Some vs ∧
               experiment_method h name vs c0 = (Raises e, comet_ml m')))
    as Hwrapped.
  { intros h m1 Hl Hh Hci. cbn zeta.
    rewrite (wrapped_run comet_installed name a h m1 Hh Hci).
    destruct (bind_args (signature name) a) as [vs|] eqn:Hb.
    - cbn zeta.
      destruct (experiment_method h name vs (comet_ml m1)) as [[v|e] c1] eqn:He;
        cbn; [by left|].
      right. right. exists h, vs, e, (comet_ml m1).
      unfold state_of. by rewrite Hl.
    - cbn. right. left. unfold state_of. rewrite Hl.
      split; [done|]. split; [by apply bind_args_None | done]. }
  destruct (_logging (self m)) as [[]|] eqn:Hs.
  - destruct (Hwf Hs) as [Hci [h Hh]].
    rewrite method_ACTIVE by done. by apply (Hwrapped h).
  - rewrite method_DISABLED by done. by left.
  - destruct (bool_dec comet_installed true) as [Hci|Hci];
      [|apply not_true_is_false in Hci;
        rewrite method_not_installed by done; by left].
    destruct (activation_total (_comet_args (self m)) (comet_ml m))
      as [(g & h & c' & Hok) | (e & Hthrow)].
    + rewrite (method_activates _ _ _ _ g h c') by done.
      by apply (Hwrapped h).
    + destruct (method_disables comet_installed name a m e Hs Hci Hthrow)
        as (m' & -> & _).
      by left.
Qed.

(** Lazy activation does not cost the first call: when the activation
    succeeds, the first call on a constructed guard does exactly what the
    same call does on a guard that is already ACTIVE with the new
    experiment, in the process as the activation left it. *)
Theorem first_call_is_not_lost kw obj c g h c' name a :
  __init__ true (VBool true) kw = Returns obj →
  activation_succeeds kw c g h c' →
  method true name a (start obj c) =
    method true name a
      (Machine (Logger (Some true) kw (Some h)) c'
         (if g is Some _ then [WarnStr clash_message] else [])
         (activation_calls kw)).
Proof.
  intros Hinit Hok. cbn in Hinit. simplify_eq.
  rewrite (method_activates true name a _ g h c') by done.
  by rewrite (method_ACTIVE true name a (Machine _ _ _ _)).
Qed.

End Further.

(** ** Errors that reach the caller *)

Section Errors.
Context {L : Type} `{!CometML L}.
Implicit Types (m : machine L) (a : call_args) (c : comet_ml_module L).

Lemma CometLogger_call_init installed a obj :
  CometLogger_call installed a = Returns obj →
  ∃ comet kw, __init__ installed comet kw = Returns obj.
Proof.
  unfold CometLogger_call.
  destruct (keywords a !! "self"); [done|].
  destruct (positional a) as [|comet [|? ?]]; [by eauto| |done].
  destruct (keywords a !! "comet"); [done | by eauto].
Qed.

Lemma CometLogger_call_raises installed a e :
  CometLogger_call installed a = Raises e →
  e = TypeError ∨ (e = missing_dependency ∧ installed = false).
Proof.
  unfold CometLogger_call.
  destruct (keywords a !! "self"); [intros [= <-]; by left|].
  destruct (positional a) as [|comet [|? ?]];
    [|destruct (keywords a !! "comet"); [intros [= <-]; by left|]
     |intros [= <-]; by left];
    intros Hr; right;
    by destruct (proj2 init_raises_missing_dependency _ _ _ _ Hr) as (-> & -> & _).
Qed.

(** How a call can end on a machine in which an active guard holds an
    experiment and comet_ml was imported *)
Lemma well_formed_call_outcomes installed name b m :
  well_formed installed m →
  let r := (method installed name b m).1 in
  let m' := (method installed name b m).2 in
  r = Returns VNone ∨
  (r = Raises TypeError ∧ misfit (signature name) b ∧
   state_of (self m') = ACTIVE) ∨
  (∃ h vs e c0, r = Raises e ∧ state_of (self m') = ACTIVE ∧
     _experiment (self m') = Some h ∧
     bind_args (signature name) b = Some vs ∧
     experiment_method h name vs c0 = (Raises e, comet_ml m')).
Proof.
  intros Hwf. cbn zeta.
  assert (∀ h m1, _logging (self m1) = Some true → _experiment (self m1) = Some h →
            installed = true →
            (wrapped installed name b m1).1 = Returns VNone ∨
            ((wrapped installed name b m1).1 = Raises TypeError ∧
             misfit (signature name) b ∧
             state_of (self (wrapped installed name b m1).2) = ACTIVE) ∨
            (∃ h vs e c0, (wrapped installed name b m1).1 = Raises e ∧
               state_of (self (wrapped installed name b m1).2) = ACTIVE ∧
               _experiment (self (wrapped installed name b m1).2) = Some h ∧
               bind_args (signature name) b = Some vs ∧
               experiment_method h name vs c0 =
                 (Raises e, comet_ml (wrapped installed name b m1).2)))
    as Hwrapped.
  { intros h m1 Hl Hh Hci.
    rewrite (wrapped_run installed name b h m1 Hh Hci).
    destruct (bind_args (signature name) b) as [vs|] eqn:Hb.
    - cbn zeta.
      destruct (experiment_method h name vs (comet_ml m1)) as [[v|e] c1] eqn:He;
        cbn; [by left|].
      right. right. exists h, vs, e, (comet_ml m1).
      unfold state_of. by rewrite Hl.
    - cbn. right. left. unfold state_of. rewrite Hl.
      split; [done|]. split; [by apply bind_args_None | done]. }
  destruct (_logging (self m)) as [[]|] eqn:Hs.
  - destruct (Hwf Hs) as [Hci [h Hh]].
    rewrite method_ACTIVE by done. by apply (Hwrapped h).
  - rewrite method_DISABLED by done. by left.
  - destruct (bool_dec installed true) as [Hci|Hci];
      [|apply not_true_is_false in Hci;
        rewrite method_not_installed by done; by left].
    destruct (activation_total (_comet_args (self m)) (comet_ml m))
      as [(g & h & c' & Hok) | (e & Hthrow)].
    + rewrite (method_activates _ _ _ _ g h c') by done.
      by apply (Hwrapped h).
    + destruct (method_disables installed name b m e Hs Hci Hthrow)
        as (m' & -> & _).
      by left.
Qed.

(** C9, as amended.  With comet_ml not installed, construction with
    [comet=True] raises the "Comet not installed" exception and returns no
    object; this is the only exception the body of the constructor raises,
    and a construction call raises nothing else but [TypeError], for
    arguments that do not fit the constructor.  It is not the only error that
    reaches the caller: a later call of an operation, on a guard that is
    ACTIVE, raises [TypeError] when its arguments do not fit and raises
    whatever the method of the held experiment raises; an operation raises
    nothing else. *)
Theorem C9_errors_reaching_the_caller :
  (∀ kw, __init__ false (VBool true) kw = Raises missing_dependency) ∧
  (∀ installed comet kw e,
     __init__ installed comet kw = Raises e →
     e = missing_dependency ∧ installed = false ∧ py_eq_bool comet true = true) ∧
  (∀ installed a e,
     CometLogger_call installed a = Raises e →
     e = TypeError ∨ (e = missing_dependency ∧ installed = false)) ∧
  (∀ installed a obj c calls name b,
     CometLogger_call installed a = Returns obj →
     let m := (run installed calls (start obj c)).2 in
     let r := (method installed name b m).1 in
     let m' := (method installed name b m).2 in
     r = Returns VNone ∨
     (r = Raises TypeError ∧ misfit (signature name) b ∧
      state_of (self m') = ACTIVE) ∨
     (∃ h vs e c0, r = Raises e ∧ state_of (self m') = ACTIVE ∧
        _experiment (self m') = Some h ∧
        bind_args (signature name) b = Some vs ∧
        experiment_method h name vs c0 = (Raises e, comet_ml m'))).
Proof.
  split; [exact (proj1 init_raises_missing_dependency)|].
  split; [exact (proj2 init_raises_missing_dependency)|].
  split; [exact CometLogger_call_raises|].
  intros installed a obj c calls name b Hcall.
  destruct (CometLogger_call_init _ _ _ Hcall) as (comet & kw & Hinit).
  apply well_formed_call_outcomes, run_well_formed.
  intros Hact. cbn in Hact.
  by destruct (init_not_ACTIVE _ _ _ _ Hinit).
Qed.

End Errors.

(** ** The properties on the example comet_ml *)

Example init_enabled : __init__ true (VBool true) sim_config = Returns sim_logger.
Proof. reflexivity. Qed.

(** [1 == True] in Python *)
Example init_accepts_one : __init__ true (VInt 1) sim_config = Returns sim_logger.
Proof. reflexivity. Qed.

Example sim_active_state :
  state_of (self sim_active) = ACTIVE ∧
  _experiment (self sim_active) = Some (ExperimentObj 1) ∧
  comet_ml sim_active = sim_activated ∧ logged sim_active = [].
Proof. vm_compute. done. Qed.

(** Calls that do not fit a signature raise [TypeError] on an active guard *)
Example active_TypeError :
  (run true [tag_without_tag; model_misspelt] sim_active).1 =
    [Raises TypeError; Raises TypeError].
Proof. vm_compute. reflexivity. Qed.

(** C1 fails as stated.  The guard is constructed with [comet=True], its first
    call activates it, and [log_code(code="print(1)")] then makes the
    experiment raise: the call raises the same exception to its caller,
    nothing has been logged, and the guard is still ACTIVE. *)
Lemma C1_exception_escapes :
  let r := run true [loss_metric; code_without_name]
               (start sim_logger (sim_fresh true)) in
  __init__ true (VBool true) sim_config = Returns sim_logger ∧
  r.1 = [Returns VNone; Raises (ClientError "code_name is mandatory")] ∧
  logged r.2 = [] ∧
  state_of (self r.2) = ACTIVE.
Proof. vm_compute. done. Qed.

Lemma C1_client_exception_propagates_witness :
  state_of (self sim_active) = ACTIVE ∧
  experiment_method (ExperimentObj 1) m_log_code
    [VNone; VNone; VStr "print(1)"; VNone] (comet_ml sim_active) =
    (Raises (ClientError "code_name is mandatory"), sim_activated) ∧
  method true m_log_code code_without_name.2 sim_active =
    (Raises (ClientError "code_name is mandatory"),
     Machine (self sim_active) sim_activated (logged sim_active)
       (trace sim_active ++
        [EvMethod (ExperimentObj 1) m_log_code
                  [VNone; VNone; VStr "print(1)"; VNone]])).
Proof.
  split; [vm_compute; reflexivity|]. split; [vm_compute; reflexivity|].
  apply (C1_client_exception_propagates true m_log_code code_without_name.2
           [VNone; VNone; VStr "print(1)"; VNone] (ExperimentObj 1)
           (ClientError "code_name is mandatory") sim_activated sim_active);
    vm_compute; reflexivity.
Defined.

Lemma C2_failed_activation_disables_witness :
  comet_ml_init (sim_fresh false) =
    (Raises (ClientError "no connection"), sim_fresh false) ∧
  ∃ m', method true m_log_metric loss_metric.2 (start sim_logger (sim_fresh false)) =
          (Returns VNone, m') ∧
    state_of (self m') = DISABLED ∧
    last (logged m') = Some (WarnExn (ClientError "no connection")) ∧
    ∀ calls, run true calls m' = (map (λ _, Returns VNone) calls, m').
Proof.
  split; [reflexivity|].
  apply (C2_failed_activation_disables sim_config sim_logger (sim_fresh false)
           (ClientError "no connection") m_log_metric loss_metric.2).
  - reflexivity.
  - apply (throws_in_init _ _ _ (sim_fresh false)). reflexivity.
Defined.

Lemma C3_one_session_witness :
  activation_succeeds sim_config (sim_fresh true) None (ExperimentObj 1)
                      sim_activated ∧
  Experiment_calls
    (run true [loss_metric; nan_metric; plain_end; loss_metric]
         (start sim_logger (sim_fresh true))).2 = 1.
Proof.
  assert (activation_succeeds sim_config (sim_fresh true) None (ExperimentObj 1)
                              sim_activated) as Hok.
  { exists (sim_fresh true), (sim_fresh true).
    repeat split; vm_compute; reflexivity. }
  split; [exact Hok|].
  apply (C3_one_session sim_config sim_logger (sim_fresh true) None
           (ExperimentObj 1) sim_activated).
  - reflexivity.
  - exact Hok.
  - discriminate.
Defined.

Lemma C4_state_transitions_witness :
  let sts := states true [loss_metric; plain_end; nan_metric]
                    (start sim_logger (sim_fresh true)) in
  sts !! 1 = Some ACTIVE ∧ sts !! 3 = Some ACTIVE ∧
  ((ACTIVE = DISABLED → ACTIVE ≠ ACTIVE) ∧
   (ACTIVE = ACTIVE → ACTIVE ≠ UNINITIALIZED)).
Proof.
  split; [vm_compute; reflexivity|]. split; [vm_compute; reflexivity|].
  apply (C4_state_transitions true [loss_metric; plain_end; nan_metric]
           (start sim_logger (sim_fresh true)) 1 3 ACTIVE ACTIVE).
  - lia.
  - vm_compute. reflexivity.
  - vm_compute. reflexivity.
Defined.

(** C5 fails as stated: the object constructed with [comet=False] still
    holds the configuration it was given. *)
Lemma C5_config_is_retained :
  ∃ obj, __init__ true (VBool false) sim_config = Returns obj ∧
    state_of obj = DISABLED ∧
    _comet_args obj !! "api_key" = Some (VStr "k3y").
Proof. eexists. split; [reflexivity|]. split; vm_compute; reflexivity. Qed.

(** [log_metric("x", float('nan'))] and calls that fit no signature, on a
    guard constructed with [comet=False] *)
Example disabled_run :
  __init__ true (VBool false) sim_config = Returns (Logger (Some false) sim_config None) ∧
  run true [nan_metric; tag_without_tag; model_misspelt; plain_end]
      (start (Logger (Some false) sim_config None) sim_manual) =
    ([Returns VNone; Returns VNone; Returns VNone; Returns VNone],
     start (Logger (Some false) sim_config None) sim_manual).
Proof. vm_compute. done. Qed.

Lemma C7_clash_warning_once_witness :
  let m := start sim_logger sim_manual in
  let m' := (method true m_log_metric loss_metric.2 m).2 in
  comet_ml_get_global_experiment sim_manual =
    (Returns (Some (ExperimentObj 1)), sim_manual) ∧
  clash_warnings m' = clash_warnings m + 1 ∧
  (∃ evs, trace m' =
     trace m ++ [EvInit; EvGetGlobalExperiment;
                 EvExperiment (_comet_args (self m))] ++ evs) ∧
  ∀ h c3, comet_ml_Experiment (_comet_args (self m)) sim_manual = (Returns h, c3) →
    state_of (self m') = ACTIVE ∧ _experiment (self m') = Some h.
Proof.
  split; [reflexivity|].
  apply (C7_clash_warning_once m_log_metric loss_metric.2
           (start sim_logger sim_manual) sim_manual (ExperimentObj 1) sim_manual);
    reflexivity.
Defined.

Lemma C8_end_clears_global_witness :
  state_of (self sim_active) = ACTIVE ∧
  ∃ h, _experiment (self sim_active) = Some h ∧
    trace (end_ true (Args [] ∅) sim_active).2 =
      trace sim_active ++ [EvMethod h m_end []] ∧
    ∀ v c', experiment_method h m_end [] (comet_ml sim_active) = (Returns v, c') →
      end_ true (Args [] ∅) sim_active =
        (Returns VNone,
         Machine (self sim_active) (CometModule None (internals c'))
                 (logged sim_active) (trace sim_active ++ [EvMethod h m_end []])).
Proof.
  split; [vm_compute; reflexivity|].
  apply (C8_end_clears_global true (VBool true) sim_config sim_logger
           (sim_fresh true) [loss_metric]).
  - reflexivity.
  - vm_compute. reflexivity.
Defined.

(** ... and there the slot, which [Experiment] had set, is [None] after
    [end()] *)
Example end_clears_slot :
  config_experiment (comet_ml sim_active) = Some (ExperimentObj 1) ∧
  config_experiment (comet_ml (end_ true (Args [] ∅) sim_active).2) = None.
Proof. vm_compute. done. Qed.

Lemma C10_end_activates_then_ends_witness :
  let m' := (end_ true (Args [] ∅) (start sim_logger (sim_fresh true))).2 in
  activation_succeeds sim_config (sim_fresh true) None (ExperimentObj 1)
                      sim_activated ∧
  trace m' = [EvInit; EvGetGlobalExperiment; EvExperiment sim_config;
              EvMethod (ExperimentObj 1) m_end []] ∧
  state_of (self m') = ACTIVE ∧ _experiment (self m') = Some (ExperimentObj 1) ∧
  ∀ v c'', experiment_method (ExperimentObj 1) m_end [] sim_activated = (Returns v, c'') →
    comet_ml m' = CometModule None (internals c'').
Proof.
  assert (activation_succeeds sim_config (sim_fresh true) None (ExperimentObj 1)
                              sim_activated) as Hok.
  { exists (sim_fresh true), (sim_fresh true).
    repeat split; vm_compute; reflexivity. }
  split; [exact Hok|].
  apply (C10_end_activates_then_ends sim_config sim_logger (sim_fresh true) None
           (ExperimentObj 1) sim_activated).
  - reflexivity.
  - exact Hok.
Defined.

(** ** The further properties on the example comet_ml *)

Lemma call_is_forwarded_witness :
  bind_args (signature m_log_metric) nan_metric.2 =
    Some [VStr "x"; VFloat S754_nan; VNone; VNone; VBool true] ∧
  method true m_log_metric nan_metric.2 sim_active =
    (Returns VNone,
     Machine (self sim_active) sim_activated (logged sim_active)
       (trace sim_active ++
        [EvMethod (ExperimentObj 1) m_log_metric
                  [VStr "x"; VFloat S754_nan; VNone; VNone; VBool true]])).
Proof.
  split; [vm_compute; reflexivity|].
  apply (call_is_forwarded m_log_metric nan_metric.2
           [VStr "x"; VFloat S754_nan; VNone; VNone; VBool true]
           (ExperimentObj 1) VNone sim_activated sim_active);
    vm_compute; reflexivity.
Defined.

Lemma forwarded_arguments_witness :
  let vs := [VStr "loss"; VFloat float_one; VInt 3; VNone; VBool true] in
  bind_args (signature m_log_metric) loss_metric.2 = Some vs ∧
  length vs = length (signature m_log_metric) ∧
  positional loss_metric.2 `prefix_of` vs.
Proof.
  assert (bind_args (signature m_log_metric) loss_metric.2 =
            Some [VStr "loss"; VFloat float_one; VInt 3; VNone; VBool true])
    as Hb by (vm_compute; reflexivity).
  split; [exact Hb|].
  destruct (forwarded_arguments m_log_metric loss_metric.2 _ Hb)
    as (Hlen & Hpre & _).
  split; [exact Hlen | exact Hpre].
Defined.


Lemma not_installed_is_noop_witness :
  __init__ false (VInt 2) sim_config = Returns sim_logger ∧
  run false [loss_metric; plain_end] (start sim_logger (sim_fresh true)) =
    ([Returns VNone; Returns VNone], start sim_logger (sim_fresh true)).
Proof.
  split; [reflexivity|].
  apply (not_installed_is_noop (VInt 2) sim_config sim_logger (sim_fresh true)
           [loss_metric; plain_end]).
  reflexivity.
Defined.

Lemma first_call_decides_witness :
  py_eq_bool (VStr "off") false = false ∧
  ∃ obj, __init__ true (VStr "off") sim_config = Returns obj ∧
    state_of obj = UNINITIALIZED ∧
    let m' := (method true m_add_tag tag_without_tag.2
                 (start obj (sim_fresh true))).2 in
    (state_of (self m') = ACTIVE ↔
       ∃ g h c', activation_succeeds sim_config (sim_fresh true) g h c') ∧
    (state_of (self m') = DISABLED ↔
       ∃ e, activation_throws sim_config (sim_fresh true) e).
Proof.
  split; [reflexivity|].
  apply (first_call_decides (VStr "off") sim_config m_add_tag tag_without_tag.2
           (sim_fresh true)).
  reflexivity.
Defined.

Lemma active_guard_is_frozen_witness :
  let m' := (run true [plain_end; nan_metric; plain_end] sim_active).2 in
  state_of (self sim_active) = ACTIVE ∧
  self m' = self sim_active ∧ logged m' = logged sim_active ∧
  ∃ evs, trace m' = trace sim_active ++ evs ∧
         Forall (on_experiment (ExperimentObj 1)) evs.
Proof.
  split; [vm_compute; reflexivity|].
  apply (active_guard_is_frozen true [plain_end; nan_metric; plain_end]
           (ExperimentObj 1) sim_active);
    vm_compute; reflexivity.
Defined.

Lemma call_protocol_witness :
  let m' := (run true [loss_metric; code_without_name; plain_end]
               (start sim_logger sim_manual)).2 in
  (state_of (self m') ≠ ACTIVE ∧ trace m' `prefix_of` activation_calls sim_config) ∨
  (state_of (self m') = ACTIVE ∧
   ∃ h evs, _experiment (self m') = Some h ∧
     trace m' = activation_calls sim_config ++ evs ∧ Forall (on_experiment h) evs).
Proof.
  apply (call_protocol true (VBool true) sim_config sim_logger sim_manual
           [loss_metric; code_without_name; plain_end]).
  reflexivity.
Defined.

Lemma at_most_two_warnings_witness :
  ∃ e, logged (run true [loss_metric; tag_without_tag; plain_end]
                 (start (Logger None ∅ None) sim_manual)).2
         `sublist_of` [WarnStr clash_message; WarnExn e].
Proof.
  apply (at_most_two_warnings true (VBool true) ∅ (Logger None ∅ None) sim_manual
           [loss_metric; tag_without_tag; plain_end]).
  reflexivity.
Defined.

(** ... where both warnings are in the log: an experiment had been made by
    hand, and [Experiment()] without an [api_key] raised *)
Example both_warnings :
  logged (run true [loss_metric; tag_without_tag; plain_end]
            (start (Logger None ∅ None) sim_manual)).2 =
    [WarnStr clash_message; WarnExn (ClientError "api_key is missing")].
Proof. vm_compute. reflexivity. Qed.

Lemma call_outcomes_witness :
  let m := (run true [loss_metric] (start sim_logger (sim_fresh true))).2 in
  let r := (method true m_log_code code_without_name.2 m).1 in
  let m' := (method true m_log_code code_without_name.2 m).2 in
  r = Returns VNone ∨
  (r = Raises TypeError ∧ misfit (signature m_log_code) code_without_name.2 ∧
   state_of (self m') = ACTIVE) ∨
  (∃ h vs e c0, r = Raises e ∧ state_of (self m') = ACTIVE ∧
     _experiment (self m') = Some h ∧
     bind_args (signature m_log_code) code_without_name.2 = Some vs ∧
     experiment_method h m_log_code vs c0 = (Raises e, comet_ml m')).
Proof.
  apply (call_outcomes true (VBool true) sim_config sim_logger (sim_fresh true)
           [loss_metric] m_log_code code_without_name.2).
  reflexivity.
Defined.

Lemma first_call_is_not_lost_witness :
  activation_succeeds sim_config (sim_fresh true) None (ExperimentObj 1)
                      sim_activated ∧
  method true m_log_metric loss_metric.2 (start sim_logger (sim_fresh true)) =
    method true m_log_metric loss_metric.2
      (Machine (Logger (Some true) sim_config (Some (ExperimentObj 1)))
         sim_activated [] (activation_calls sim_config)).
Proof.
  assert (activation_succeeds sim_config (sim_fresh true) None (ExperimentObj 1)
                              sim_activated) as Hok.
  { exists (sim_fresh true), (sim_fresh true).
    repeat split; vm_compute; reflexivity. }
  split; [exact Hok|].
  apply (first_call_is_not_lost sim_config sim_logger (sim_fresh true) None
           (ExperimentObj 1) sim_activated m_log_metric loss_metric.2).
  - reflexivity.
  - exact Hok.
Defined.

(** ** Errors on the example comet_ml *)

(** [CometLogger(True, api_key="k3y")] *)
Example call_enabled :
  CometLogger_call true (Args [VBool true] sim_config) = Returns sim_logger.
Proof. vm_compute. reflexivity. Qed.

(** [CometLogger(comet=True, api_key="k3y")]: [comet] is no part of [kwargs] *)
Example call_by_keyword :
  CometLogger_call true (Args [] (<["comet" := VBool true]> sim_config)) =
    Returns sim_logger.
Proof. vm_compute. reflexivity. Qed.

(** C9 fails as stated: the "Comet not installed" exception is not the only
    error that reaches the caller.  [CometLogger(True, False)] raises
    [TypeError]; and on the guard made by [CometLogger(True, api_key="k3y")]
    with comet_ml installed, where construction raises nothing, the call
    [log_code(code="print(1)")] raises the exception of the experiment and
    [add_tag()] raises [TypeError]. *)
Lemma C9_other_errors_reach_the_caller :
  CometLogger_call false (Args [VBool true; VBool false] ∅) = Raises TypeError ∧
  TypeError ≠ missing_dependency ∧
  CometLogger_call true (Args [VBool true] sim_config) = Returns sim_logger ∧
  (run true [loss_metric; code_without_name; tag_without_tag]
       (start sim_logger (sim_fresh true))).1 =
    [Returns VNone; Raises (ClientError "code_name is mandatory");
     Raises TypeError] ∧
  ClientError "code_name is mandatory" ≠ missing_dependency.
Proof.
  split; [vm_compute; reflexivity|]. split; [discriminate|].
  split; [vm_compute; reflexivity|]. split; [vm_compute; reflexivity|].
  discriminate.
Qed.

Lemma C9_errors_reaching_the_caller_witness :
  __init__ false (VBool true) sim_config = Raises missing_dependency ∧
  CometLogger_call false (Args [VInt 1] sim_config) = Raises missing_dependency ∧
  (missing_dependency = TypeError ∨
   (missing_dependency = missing_dependency ∧ false = false)) ∧
  CometLogger_call true (Args [VBool true] sim_config) = Returns sim_logger ∧
  let m := (run true [loss_metric] (start sim_logger (sim_fresh true))).2 in
  let r := (method true m_add_tag tag_without_tag.2 m).1 in
  let m' := (method true m_add_tag tag_without_tag.2 m).2 in
  r = Returns VNone ∨
  (r = Raises TypeError ∧ misfit (signature m_add_tag) tag_without_tag.2 ∧
   state_of (self m') = ACTIVE) ∨
  (∃ h vs e c0, r = Raises e ∧ state_of (self m') = ACTIVE ∧
     _experiment (self m') = Some h ∧
     bind_args (signature m_add_tag) tag_without_tag.2 = Some vs ∧
     experiment_method h m_add_tag vs c0 = (Raises e, comet_ml m')).
Proof.
  destruct (C9_errors_reaching_the_caller (L:=sim)) as (H1 & H2 & H3 & H4).
  split; [apply H1|].
  assert (CometLogger_call false (Args [VInt 1] sim_config) =
            Raises missing_dependency) as Hr by (vm_compute; reflexivity).
  split; [exact Hr|].
  split; [exact (H3 false (Args [VInt 1] sim_config) missing_dependency Hr)|].
  assert (CometLogger_call true (Args [VBool true] sim_config) =
            Returns sim_logger) as Hc by (vm_compute; reflexivity).
  split; [exact Hc|].
  exact (H4 true (Args [VBool true] sim_config) sim_logger (sim_fresh true)
            [loss_metric] m_add_tag tag_without_tag.2 Hc).
Defined.
